(** * tolu-portfolio: service worker and content renderers

    A shallow embedding of the runtime behaviour of the portfolio site:
    the cache-strategy service worker ([dist/sw.js]), the lazy-image
    error handling of [ImageOptimizer], and the JSON-driven content
    renderers ([ProjectsManager], [PublicationsManager],
    [AIEngineeringProjects]).

    Browser objects are modelled by explicit state:
    - Cache Storage is an association list of named caches in creation
      order, each cache an association list keyed by request URL;
    - the network is an oracle giving, for a request, either the response
      it resolves with or [None] when [fetch] rejects;
    - promise reactions that the code does not await are queued as
      pending tasks and run by [drain]/[settle];
    - an element's [innerHTML] is the string assigned to it. *)

From Stdlib Require Import String Ascii List ZArith Bool Lia.
From Stdlib Require Import Permutation Sorted.
From Stdlib Require DecimalString.
Import ListNotations.
Local Open Scope list_scope.
Local Open Scope string_scope.

(** ** JavaScript string primitives *)

Module JsString.

(** [s.includes(sub)] *)
Fixpoint includes (s sub : string) : bool :=
  if String.prefix sub s then true
  else match s with
       | EmptyString => false
       | String _ s' => includes s' sub
       end.

(** [s.endsWith(suf)] *)
Definition endsWith (s suf : string) : bool :=
  let n := String.length s in
  let m := String.length suf in
  (m <=? n)%nat && String.eqb (String.substring (n - m) m s) suf.

Definition lowerAscii (c : ascii) : ascii :=
  let n := nat_of_ascii c in
  if ((65 <=? n) && (n <=? 90))%nat then ascii_of_nat (n + 32) else c.

(** [s.toLowerCase()] on ASCII text *)
Fixpoint toLowerCase (s : string) : string :=
  match s with
  | EmptyString => EmptyString
  | String c s' => String (lowerAscii c) (toLowerCase s')
  end.

(** [s.replace(pat, rep)] with a string pattern: the first occurrence only *)
Fixpoint replace (s pat rep : string) : string :=
  if String.prefix pat s
  then rep ++ String.substring (String.length pat) (String.length s - String.length pat) s
  else match s with
       | EmptyString => EmptyString
       | String c s' => String c (replace s' pat rep)
       end.

(** [arr.join('')] *)
Definition join (l : list string) : string := String.concat EmptyString l.

(** the double-quote character of HTML attribute values *)
Definition dq : string := String (ascii_of_nat 34) EmptyString.

(** [name="value"] *)
Definition attr (name value : string) : string := name ++ "=" ++ dq ++ value ++ dq.

End JsString.

(** ** The service worker, [dist/sw.js] *)

Module SW.
Import JsString.

Definition CACHE_NAME : string := "portfolio-v2".
Definition STATIC_CACHE : string := "portfolio-static-v2".
Definition DYNAMIC_CACHE : string := "portfolio-dynamic-v2".

(** [new URL(request.url)]: the parts the worker reads *)
Record URL := mkURL { origin : string; pathname : string; search : string }.

Record Request := mkRequest { url : URL; method : string; destination : string }.

(** A [Response]; [ok] is derived from the status as the Fetch API does. *)
Record Response := mkResponse { status : Z; body : string }.

Definition ok (r : Response) : bool := ((200 <=? status r) && (status r <=? 299))%Z.

(** The ok statuses whose responses have no body ([response.body] is
    [null]): 204 and 205. *)
Definition null_body (r : Response) : bool := ((status r =? 204) || (status r =? 205))%Z.

Definition URL_eqb (a b : URL) : bool :=
  String.eqb (origin a) (origin b) && String.eqb (pathname a) (pathname b)
  && String.eqb (search a) (search b).

(** *** Cache Storage *)

(** One cache: request URL to stored response.  The fetch listener only
    forwards GET requests, for which the Cache API matches on the URL. *)
Definition Cache := list (URL * Response).

Fixpoint cache_match (c : Cache) (u : URL) : option Response :=
  match c with
  | [] => None
  | (k, r) :: c' => if URL_eqb k u then Some r else cache_match c' u
  end.

(** [cache.put(request, response)]: overwrites the entry of that URL *)
Fixpoint cache_put (c : Cache) (u : URL) (r : Response) : Cache :=
  match c with
  | [] => [(u, r)]
  | (k, r0) :: c' => if URL_eqb k u then (k, r) :: c' else (k, r0) :: cache_put c' u r
  end.

(** [caches]: named caches in creation order *)
Definition CacheStorage := list (string * Cache).

Definition caches_keys (cs : CacheStorage) : list string := map fst cs.

Fixpoint caches_get (cs : CacheStorage) (name : string) : option Cache :=
  match cs with
  | [] => None
  | (n, c) :: cs' => if String.eqb n name then Some c else caches_get cs' name
  end.

(** [caches.open(name)]: creates the cache when it does not exist *)
Definition caches_open (cs : CacheStorage) (name : string) : CacheStorage :=
  match caches_get cs name with
  | Some _ => cs
  | None => (cs ++ [(name, [])])%list
  end.

(** [caches.delete(name)] *)
Definition caches_delete (cs : CacheStorage) (name : string) : CacheStorage :=
  filter (fun nc => negb (String.eqb (fst nc) name)) cs.

(** [caches.match(request)]: the first cache, in creation order, that has
    an entry for the request *)
Fixpoint caches_match (cs : CacheStorage) (u : URL) : option Response :=
  match cs with
  | [] => None
  | (_, c) :: cs' =>
      match cache_match c u with
      | Some r => Some r
      | None => caches_match cs' u
      end
  end.

(** the cache named [name] after [put] *)
Fixpoint caches_put (cs : CacheStorage) (name : string) (u : URL) (r : Response)
  : CacheStorage :=
  match cs with
  | [] => []
  | (n, c) :: cs' =>
      if String.eqb n name then (n, cache_put c u r) :: cs'
      else (n, c) :: caches_put cs' name u r
  end.

(** *** The worker's world *)

(** Promise reactions that were started but are not awaited by the code
    that started them. *)
Inductive Task :=
| TPut (cacheName : string) (req : Request) (resp : Response)
    (* cache.put(request, response.clone()) on the cache opened as cacheName *)
| TRevalidate (req : Request).
    (* fetch(request).then(...).catch(...) of staleWhileRevalidate *)

Inductive Event :=
| EvFetch (req : Request)                          (* fetch(request) was called *)
| EvSettled (req : Request) (r : option Response)  (* that fetch resolved or rejected *)
| EvPut (cacheName : string) (req : Request) (resp : Response).

Record World := mkWorld {
  caches : CacheStorage;
  pending : list Task;
  trace : list Event          (* chronological *)
}.

Definition set_caches (cs : CacheStorage) (w : World) : World :=
  mkWorld cs (pending w) (trace w).
Definition set_pending (p : list Task) (w : World) : World :=
  mkWorld (caches w) p (trace w).
Definition log (e : Event) (w : World) : World :=
  mkWorld (caches w) (pending w) (trace w ++ [e])%list.
Definition enqueue (t : Task) (w : World) : World :=
  mkWorld (caches w) (pending w ++ [t])%list (trace w).
Definition open_cache (name : string) (w : World) : World :=
  set_caches (caches_open (caches w) name) w.

(** What an [async] function settles with: a value ([None] is
    [null]/[undefined]) or a thrown error. *)
Inductive Completion :=
| Normal (v : option Response)
| Thrown.

Section Worker.

(** [location.origin] of the worker *)
Variable location_origin : string.
(** the network: [None] when [fetch(request)] rejects *)
Variable network : Request -> option Response.

(** the request [caches.match('/path')] builds from a string *)
Definition local_url (path : string) : URL := mkURL location_origin path EmptyString.

(** **** Helper functions to determine asset types *)

Definition isStaticAsset (pathname : string) : bool :=
  includes pathname "/dist/css/" ||
  includes pathname "/dist/js/" ||
  endsWith pathname ".css" ||
  endsWith pathname ".js" ||
  endsWith pathname ".pdf" ||
  includes pathname "/assets/images/profile/" ||
  includes pathname "/assets/images/icons/".

Definition isDynamicAsset (pathname : string) : bool :=
  includes pathname "/assets/images/projects/" ||
  endsWith pathname ".png" ||
  endsWith pathname ".jpg" ||
  endsWith pathname ".jpeg" ||
  endsWith pathname ".svg" ||
  endsWith pathname ".webp".

Definition isDataRequest (pathname : string) : bool :=
  includes pathname "/assets/data/" ||
  endsWith pathname ".json".

(** **** Pending reactions *)

(** Runs one queued reaction.  The [then] callback of
    [staleWhileRevalidate] starts [caches.open(DYNAMIC_CACHE).then(c => c.put(..))]
    for an ok response and returns without waiting for it; its [catch]
    swallows a rejection. *)
Definition run_task (t : Task) (w : World) : World :=
  match t with
  | TPut name req resp =>
      log (EvPut name req resp)
          (set_caches (caches_put (caches_open (caches w) name) name (url req) resp) w)
  | TRevalidate req =>
      let w1 := log (EvSettled req (network req)) w in
      match network req with
      | Some response => if ok response then enqueue (TPut DYNAMIC_CACHE req response) w1 else w1
      | None => w1
      end
  end.

(** One pass over the queue: every reaction queued so far runs, in order;
    reactions they start stay queued. *)
Definition drain (w : World) : World :=
  fold_left (fun acc t => run_task t acc) (pending w) (set_pending [] w).

(** Until the queue is empty: a revalidation starts at most a [put], and a
    [put] starts nothing. *)
Definition settle (w : World) : World := drain (drain w).

(** **** Cache First Strategy *)
Definition cacheFirst (request : Request) (w : World) : Completion * World :=
  match caches_match (caches w) (url request) with
  | Some cachedResponse => (Normal (Some cachedResponse), w)
  | None =>
      let w1 := log (EvFetch request) w in
      match network request with
      | Some networkResponse =>
          let w2 := log (EvSettled request (Some networkResponse)) w1 in
          (Normal (Some networkResponse),
           if ok networkResponse
           then enqueue (TPut STATIC_CACHE request networkResponse) (open_cache STATIC_CACHE w2)
           else w2)
      | None => (Thrown, log (EvSettled request None) w1)
      end
  end.

(** **** Stale While Revalidate Strategy

    With a cached response the fetch is left to its reactions
    ([TRevalidate]): its response is handed to nobody and can be cloned.
    Without one the function awaits the fetch, so the [then] callback
    runs before the return: for an ok response it calls
    [caches.open(DYNAMIC_CACHE)] and leaves [c => c.put(request,
    response.clone())] as a reaction of that promise.  The same
    [response] is then returned to [event.respondWith], which takes its
    body; when the reaction runs, [response.clone()] throws (the body is
    locked), nothing is put, and no one observes the rejection.  Only a
    response without a body can still be cloned. *)
Definition staleWhileRevalidate (request : Request) (w : World) : Completion * World :=
  let cachedResponse := caches_match (caches w) (url request) in
  let w1 := log (EvFetch request) w in
  match cachedResponse with
  | Some r => (Normal (Some r), enqueue (TRevalidate request) w1)
  | None =>
      let w2 := log (EvSettled request (network request)) w1 in
      match network request with
      | Some response =>
          (Normal (Some response),
           if ok response
           then
             if null_body response
             then enqueue (TPut DYNAMIC_CACHE request response) w2
             else open_cache DYNAMIC_CACHE w2
           else w2)
      | None => (Normal None, w2)
      end
  end.

(** **** Network First Strategy *)
Definition networkFirst (request : Request) (w : World) : Completion * World :=
  let w1 := log (EvFetch request) w in
  match network request with
  | Some networkResponse =>
      let w2 := log (EvSettled request (Some networkResponse)) w1 in
      (Normal (Some networkResponse),
       if ok networkResponse
       then enqueue (TPut DYNAMIC_CACHE request networkResponse) (open_cache DYNAMIC_CACHE w2)
       else w2)
  | None =>
      let w2 := log (EvSettled request None) w1 in
      match caches_match (caches w2) (url request) with
      | Some cachedResponse => (Normal (Some cachedResponse), w2)
      | None => (Thrown, w2)
      end
  end.

(** **** Offline fallback handler *)
Definition handleOffline (request : Request) (w : World) : Completion * World :=
  match caches_match (caches w) (url request) with
  | Some cachedResponse => (Normal (Some cachedResponse), w)
  | None =>
      if String.eqb (destination request) "document" then
        match caches_match (caches w) (local_url "/index.html") with
        | Some offlineHTML => (Normal (Some offlineHTML), w)
        | None => (Normal (Some (mkResponse 503 "Offline")), w)
        end
      else if String.eqb (destination request) "image" then
        match caches_match (caches w) (local_url "/assets/images/fallback-image.svg") with
        | Some fallbackImage => (Normal (Some fallbackImage), w)
        | None => (Normal (Some (mkResponse 503 "Image unavailable")), w)
        end
      else (Normal (Some (mkResponse 503 "Resource unavailable offline")), w)
  end.

(** [try { ... } catch (error) { return await handleOffline(request) }] *)
Definition orOffline (request : Request) (r : Completion * World) : Completion * World :=
  match r with
  | (Normal v, w) => (Normal v, w)
  | (Thrown, w) => handleOffline request w
  end.

Definition handleRequest (request : Request) (w : World) : Completion * World :=
  let pathname := pathname (url request) in
  orOffline request
    (if isStaticAsset pathname then cacheFirst request w
     else if isDynamicAsset pathname then staleWhileRevalidate request w
     else if isDataRequest pathname then networkFirst request w
     else networkFirst request w).

(** **** Fetch event
    [None]: the listener returned without [event.respondWith]. *)
Definition onFetch (request : Request) (w : World) : option Completion * World :=
  if negb (String.eqb (method request) "GET") then (None, w)
  else if negb (String.eqb (origin (url request)) location_origin) then (None, w)
  else let (c, w') := handleRequest request w in (Some c, w').

End Worker.

(** **** Activate event: clean up old caches *)
Definition onActivate (w : World) : World :=
  set_caches
    (fold_left
       (fun cs cacheName =>
          if negb (String.eqb cacheName STATIC_CACHE) && negb (String.eqb cacheName DYNAMIC_CACHE)
          then caches_delete cs cacheName
          else cs)
       (caches_keys (caches w)) (caches w))
    w.

End SW.

(** ** Lazy images, [ImageOptimizer] *)

Module ImageOptimizer.
Import JsString.

(** An [<img>] element and the part of its context the optimizer reads. *)
Record Img := mkImg {
  src : string;
  classList : list string;
  dataset_src : option string;         (* data-src *)
  dataset_lazy : option string;        (* data-lazy *)
  ancestors : list (list string);      (* class lists of the ancestors, nearest first *)
  alt : option string;
  title : option string
}.

Definition fallbackImage : string := "assets/images/fallback-image.svg".

(** [this.categoryFallbacks[key]] *)
Definition categoryFallbacks (key : string) : string :=
  if String.eqb key "technical-diagram" then "assets/images/fallbacks/technical-diagram-fallback.svg"
  else if String.eqb key "research-plot" then "assets/images/fallbacks/research-plot-fallback.svg"
  else if String.eqb key "project-screenshot" then "assets/images/fallbacks/project-screenshot-fallback.svg"
  else "assets/images/fallbacks/default-fallback.svg".

Definition truthy (o : option string) : bool :=
  match o with
  | Some (String _ _) => true
  | _ => false
  end.

(** [a || b] on optional strings *)
Definition js_or (a b : option string) : option string := if truthy a then a else b.

Definition contains (l : list string) (c : string) : bool := existsb (String.eqb c) l.

(** [img.classList.add(c)] *)
Definition classList_add (c : string) (img : Img) : Img :=
  mkImg (src img) (if contains (classList img) c then classList img else classList img ++ [c])%list
        (dataset_src img) (dataset_lazy img) (ancestors img) (alt img) (title img).

(** [img.classList.remove(c)] *)
Definition classList_remove (c : string) (img : Img) : Img :=
  mkImg (src img) (filter (fun x => negb (String.eqb c x)) (classList img))
        (dataset_src img) (dataset_lazy img) (ancestors img) (alt img) (title img).

Definition set_src (s : string) (img : Img) : Img :=
  mkImg s (classList img) (dataset_src img) (dataset_lazy img) (ancestors img) (alt img) (title img).

Definition set_alt_title (a t : option string) (img : Img) : Img :=
  mkImg (src img) (classList img) (dataset_src img) (dataset_lazy img) (ancestors img) a t.

Definition delete_dataset (img : Img) : Img :=
  mkImg (src img) (classList img) None None (ancestors img) (alt img) (title img).

(** [img.closest('.c')]: the element itself or an ancestor has class [c] *)
Definition closest (img : Img) (c : string) : bool :=
  contains (classList img) c || existsb (fun cl => contains cl c) (ancestors img).

(** Handle image loading errors with fallback *)
Definition handleImageError (img : Img) : Img :=
  let fallbackSrc :=
    if contains (classList img) "technical-diagram" || closest img "technical-diagram"
    then categoryFallbacks "technical-diagram"
    else if contains (classList img) "research-plot" || closest img "research-plot"
    then categoryFallbacks "research-plot"
    else if contains (classList img) "project-screenshot" || closest img "project-screenshot"
    then categoryFallbacks "project-screenshot"
    else if contains (classList img) "artifact-image"
    then categoryFallbacks "technical-diagram"
    else fallbackImage in
  let img1 := set_src fallbackSrc img in
  let img2 := classList_add "fallback" img1 in
  let img3 := classList_remove "loading" img2 in
  set_alt_title (js_or (alt img3) (Some "Image not available"))
                (Some "Image could not be loaded") img3.

(** Load a specific image.  [loads url] tells whether the preloading
    [Image] fires [onload] (true) or [onerror] (false) for that URL; the
    result is the element after that event. *)
Definition loadImage (loads : string -> bool) (img : Img) : Img :=
  match js_or (dataset_src img) (dataset_lazy img) with
  | Some (String a s) =>
      let src := String a s in
      let img1 := classList_add "loading" img in
      if loads src
      then delete_dataset (classList_remove "loading" (classList_add "loaded" (set_src src img1)))
      else handleImageError img1
  | _ => img
  end.

End ImageOptimizer.

(** ** JSON data files as the renderers receive them *)

Module Fetch.

(** The response of [fetch(path)]; [json] is what [response.json()]
    gives: [None] when the body does not parse, [Some None] when the
    parsed object has no usable list under the key the renderer reads,
    [Some (Some l)] when it has the array [l]. *)
Record JsonResponse (A : Type) := mkJsonResponse {
  status : Z;
  json : option (option (list A))
}.
Arguments mkJsonResponse {A}.
Arguments status {A}.
Arguments json {A}.

Definition ok {A} (r : JsonResponse A) : bool := ((200 <=? status r) && (status r <=? 299))%Z.

(** [None]: [fetch] rejects (network error). *)
Definition Outcome (A : Type) := option (JsonResponse A).

End Fetch.

(** ** Sequencing with exceptions over a manager's state *)

Module Control.

Inductive Signal := Returned | Raised.

Section Steps.
Context {S : Type}.

Definition Step := S -> Signal * S.

Definition skip : Step := fun s => (Returned, s).

(** [a; b] *)
Definition seq (a b : Step) : Step :=
  fun s => match a s with
           | (Returned, s1) => b s1
           | (Raised, s1) => (Raised, s1)
           end.

(** [try { body } catch (e) { handler }] *)
Definition try_catch (body handler : Step) : Step :=
  fun s => match body s with
           | (Returned, s1) => (Returned, s1)
           | (Raised, s1) => handler s1
           end.

End Steps.

Arguments Step S : clear implicits.

End Control.

Declare Scope step_scope.
Delimit Scope step_scope with step.
Notation "a ;; b" := (Control.seq a b) (at level 61, right associativity) : step_scope.

(** ** [ProjectsManager]: the three-category project showcase *)

Module Projects.
Import JsString Control.
Local Open Scope step_scope.

Record Project := mkProject {
  id : string;
  title : string;
  category : string;
  description : string;
  technologies : option (list string);
  images : option (list string)
}.

(** [{ ...p, category: c }] *)
Definition withCategory (c : string) (p : Project) : Project :=
  mkProject (id p) (title p) c (description p) (technologies p) (images p).

(** The page and the network as the manager finds them. *)
Record Env := mkEnv {
  fetch : string -> Fetch.Outcome Project;
  filterHeader : bool;
    (* the grid has a '.container' ancestor holding a '.text-center.mb-16' header *)
  imageOptimizer : option bool
    (* window.imageOptimizer, and whether that object has a method addLazyImages *)
}.

Record State := mkState {
  allProjects : list Project;
  filteredProjects : list Project;
  currentCategory : string;
  projectsGrid : option string;   (* innerHTML of #projects-grid; None: no such element *)
  categoryFilters : bool          (* the filter buttons were created *)
}.

(** the constructor, before [init()] *)
Definition new_manager (grid : option string) : State :=
  mkState [] [] "all" grid false.

Definition set_projects (l : list Project) (s : State) : State :=
  mkState l l (currentCategory s) (projectsGrid s) (categoryFilters s).

Definition set_innerHTML (html : string) (s : State) : State :=
  mkState (allProjects s) (filteredProjects s) (currentCategory s)
          (match projectsGrid s with Some _ => Some html | None => None end)
          (categoryFilters s).

Definition string_of_nat (n : nat) : string :=
  DecimalString.NilEmpty.string_of_uint (Nat.to_uint n).

Definition getCategoryDisplayName (category : string) : string :=
  if String.eqb category "all" then "Projects"
  else if String.eqb category "ai-product" then "AI Product Management Projects"
  else if String.eqb category "ml-engineering" then "ML Engineering Projects"
  else if String.eqb category "research" then "Research Projects"
  else "Projects".

Definition getCategoryBadge (category : string) : string :=
  if String.eqb category "ai-product"
  then "<span " ++ attr "class" "project-category-badge ai-product" ++ ">AI Product</span>"
  else if String.eqb category "ml-engineering"
  then "<span " ++ attr "class" "project-category-badge ml-engineering" ++ ">ML Engineering</span>"
  else if String.eqb category "research"
  then "<span " ++ attr "class" "project-category-badge research" ++ ">Research</span>"
  else EmptyString.

Definition techTag (tech : string) : string :=
  "<span " ++ attr "class" "project-card-tech-tag" ++ ">" ++ tech ++ "</span>".

Definition placeholderSvg : string :=
  "<svg " ++ attr "width" "60" ++ " " ++ attr "height" "60" ++ " "
  ++ attr "viewBox" "0 0 24 24" ++ " " ++ attr "fill" "none" ++ " "
  ++ attr "stroke" "currentColor" ++ " " ++ attr "stroke-width" "1" ++ ">"
  ++ "<rect " ++ attr "x" "3" ++ " " ++ attr "y" "3" ++ " " ++ attr "width" "18" ++ " "
  ++ attr "height" "18" ++ " " ++ attr "rx" "2" ++ " " ++ attr "ry" "2" ++ "/>"
  ++ "<circle " ++ attr "cx" "8.5" ++ " " ++ attr "cy" "8.5" ++ " " ++ attr "r" "1.5" ++ "/>"
  ++ "<polyline " ++ attr "points" "21,15 16,10 5,21" ++ "/>"
  ++ "</svg>".

(** The card of one project.  The layout whitespace of the template
    literal is not reproduced. *)
Definition createProjectCard (project : Project) : string :=
  let firstImage :=
    match images project with
    | Some (i :: _) => Some i
    | _ => None
    end in
  (* [firstImage ? ... : ...]: an empty path is falsy *)
  let firstImage :=
    match firstImage with
    | Some (String a i) => Some (String a i)
    | _ => None
    end in
  let techTags :=
    match technologies project with
    | Some t => join (map techTag (firstn 3 t))
    | None => EmptyString
    end in
  let imageHTML :=
    match firstImage with
    | Some i =>
        "<img " ++ attr "data-src" i ++ " " ++ attr "alt" (title project) ++ " "
        ++ attr "class" "lazy-image project-card-img project-screenshot" ++ " "
        ++ attr "loading" "lazy" ++ " "
        ++ attr "sizes" "(max-width: 768px) 100vw, (max-width: 1024px) 50vw, 33vw" ++ ">"
    | None =>
        "<div " ++ attr "class" "project-card-placeholder" ++ ">" ++ placeholderSvg
        ++ "<span>Image Coming Soon</span></div>"
    end in
  let categoryBadge := getCategoryBadge (category project) in
  let more :=
    match technologies project with
    | Some t =>
        if (3 <? List.length t)%nat
        then "<span " ++ attr "class" "project-card-tech-tag" ++ " "
             ++ attr "aria-label" (string_of_nat (List.length t - 3) ++ " additional technologies")
             ++ ">+" ++ string_of_nat (List.length t - 3) ++ " more</span>"
        else EmptyString
    | None => EmptyString
    end in
  "<article " ++ attr "class" "project-card" ++ " "
  ++ attr "data-project-id" (id project) ++ " "
  ++ attr "data-category" (category project) ++ " "
  ++ attr "role" "button" ++ " " ++ attr "tabindex" "0" ++ " "
  ++ attr "aria-label" ("View details for " ++ title project ++ " in "
                        ++ getCategoryDisplayName (category project)) ++ " "
  ++ attr "aria-describedby" ("project-" ++ id project ++ "-description") ++ ">"
  ++ "<div " ++ attr "class" "project-card-image" ++ ">" ++ imageHTML ++ categoryBadge ++ "</div>"
  ++ "<div " ++ attr "class" "project-card-content" ++ ">"
  ++ "<h3 " ++ attr "class" "project-card-title" ++ ">" ++ title project ++ "</h3>"
  ++ "<p " ++ attr "class" "project-card-description" ++ " "
  ++ attr "id" ("project-" ++ id project ++ "-description") ++ ">"
  ++ description project ++ "</p>"
  ++ "<div " ++ attr "class" "project-card-tech" ++ " "
  ++ attr "aria-label" "Technologies used" ++ ">" ++ techTags ++ more ++ "</div>"
  ++ "</div></article>".

Definition loadingHTML : string :=
  "<div " ++ attr "class" "loading-state col-span-full text-center py-12" ++ ">"
  ++ "<div " ++ attr "class" "loading-spinner mx-auto mb-4" ++ "></div>"
  ++ "<p " ++ attr "class" "text-gray-600" ++ ">Loading projects...</p></div>".

Definition errorIconSvg : string :=
  "<svg " ++ attr "width" "48" ++ " " ++ attr "height" "48" ++ " "
  ++ attr "viewBox" "0 0 24 24" ++ " " ++ attr "fill" "none" ++ " "
  ++ attr "stroke" "currentColor" ++ " " ++ attr "stroke-width" "2" ++ ">"
  ++ "<circle " ++ attr "cx" "12" ++ " " ++ attr "cy" "12" ++ " " ++ attr "r" "10" ++ "></circle>"
  ++ "<line " ++ attr "x1" "15" ++ " " ++ attr "y1" "9" ++ " " ++ attr "x2" "9" ++ " "
  ++ attr "y2" "15" ++ "></line>"
  ++ "<line " ++ attr "x1" "9" ++ " " ++ attr "y1" "9" ++ " " ++ attr "x2" "15" ++ " "
  ++ attr "y2" "15" ++ "></line></svg>".

Definition errorHTML (message : string) : string :=
  "<div " ++ attr "class" "error-state col-span-full text-center py-12" ++ ">"
  ++ "<div " ++ attr "class" "error-icon mx-auto mb-4 text-red-500" ++ ">" ++ errorIconSvg ++ "</div>"
  ++ "<h3 " ++ attr "class" "text-lg font-semibold text-gray-900 mb-2" ++ ">Unable to Load Projects</h3>"
  ++ "<p " ++ attr "class" "text-gray-600 mb-4" ++ ">" ++ message ++ "</p>"
  ++ "<button " ++ attr "onclick" "location.reload()" ++ " " ++ attr "class" "btn btn-primary"
  ++ ">Try Again</button></div>".

Definition emptyHTML (category : string) : string :=
  "<p " ++ attr "class" "text-center text-gray-500 col-span-full" ++ ">No "
  ++ toLowerCase (getCategoryDisplayName category) ++ " available.</p>".

Definition showLoadingState : Step State := fun s => (Returned, set_innerHTML loadingHTML s).

(** Loading state will be replaced by renderProjects() *)
Definition hideLoadingState : Step State := skip.

Definition showError (message : string) : Step State :=
  fun s => (Returned, set_innerHTML (errorHTML message) s).

(** [projectData.x?.projects || []] after the guarded fetch of one file:
    a rejected fetch, a non-ok status and an unparsable body are each
    caught and leave the entry [null]. *)
Definition loadFile (o : Fetch.Outcome Project) : list Project :=
  match o with
  | Some r =>
      if Fetch.ok r
      then match Fetch.json r with
           | Some (Some projects) => projects
           | _ => []
           end
      else []
  | None => []
  end.

Definition loadProjects (env : Env) : Step State :=
  fun s =>
    let ai := loadFile (fetch env "assets/data/ai-product-projects.json") in
    let ml := loadFile (fetch env "assets/data/ml-engineering-projects.json") in
    let research := loadFile (fetch env "assets/data/research-projects.json") in
    let all := (map (withCategory "ai-product") ai
                ++ map (withCategory "ml-engineering") ml
                ++ map (withCategory "research") research)%list in
    let s1 := set_projects all s in
    match all with
    | [] => (Raised, s1)      (* No projects could be loaded from any data file *)
    | _ => (Returned, s1)
    end.

Definition createCategoryFilters (env : Env) : Step State :=
  fun s =>
    match projectsGrid s with
    | None => (Returned, s)
    | Some _ =>
        if filterHeader env
        then (Returned, mkState (allProjects s) (filteredProjects s) (currentCategory s)
                                (projectsGrid s) true)
        else (Returned, s)
    end.

Definition renderProjects (env : Env) : Step State :=
  fun s =>
    match projectsGrid s with
    | None => (Returned, s)
    | Some _ =>
        match filteredProjects s with
        | [] => (Returned, set_innerHTML (emptyHTML (currentCategory s)) s)
        | _ =>
            let s1 := set_innerHTML (join (map createProjectCard (filteredProjects s))) s in
            (* Add new images to lazy loading system *)
            match imageOptimizer env with
            | None => (Returned, s1)
            | Some hasAddLazyImages => if hasAddLazyImages then (Returned, s1) else (Raised, s1)
            end
        end
    end.

(** Registers listeners only; every target is guarded. *)
Definition bindEvents : Step State := skip.

Definition filterProjects (env : Env) (category : string) : Step State :=
  fun s =>
    let filtered :=
      if String.eqb category "all" then allProjects s
      else filter (fun project => String.eqb (Projects.category project) category) (allProjects s) in
    renderProjects env
      (mkState (allProjects s) filtered category (projectsGrid s) (categoryFilters s)).

Definition fallbackProjects : list Project :=
  [ mkProject "autodescribe" "AutoDescribe" "ai-product"
      "RAG + human-in-the-loop product description generator that automates content creation while maintaining quality control."
      (Some ["RAG"; "Python"; "OpenAI API"; "Human-in-the-loop"; "NLP"])
      (Some ["assets/images/projects/autodescribe/dashboard.svg"]);
    mkProject "drosophila-neurotoxicity" "Neurotoxicity Analysis with Drosophila" "research"
      "Understanding the neurotoxic effects of environmental compounds using Drosophila melanogaster as a model organism."
      (Some ["Behavioral Analysis"; "Electrophysiology"; "Molecular Biology"; "Statistical Analysis"])
      (Some ["assets/images/projects/drosophila/experimental-setup.svg"]) ].

Definition loadFallbackProjects : Step State :=
  fun s => (Returned, set_projects fallbackProjects s).

Definition init (env : Env) : Step State :=
  try_catch
    (showLoadingState ;; loadProjects env ;; createCategoryFilters env ;;
     renderProjects env ;; bindEvents ;; hideLoadingState)
    (hideLoadingState ;;
     try_catch
       (loadFallbackProjects ;; createCategoryFilters env ;; renderProjects env ;; bindEvents)
       (showError "Failed to load projects. Please try again later.")).

End Projects.

(** ** [Array.prototype.sort] *)

Module JsArray.

Section Sort.
Context {A : Type}.
(** the comparator's number; [None] is NaN *)
Variable comparefn : A -> A -> option Z.

(** [a] may stay before [b]: the comparator's result is not positive
    (NaN counts as +0). *)
Definition keeps (a b : A) : bool :=
  match comparefn a b with
  | Some v => (v <=? 0)%Z
  | None => true
  end.

Fixpoint insert (x : A) (l : list A) : list A :=
  match l with
  | [] => [x]
  | y :: l' => if keeps x y then x :: l else y :: insert x l'
  end.

(** The built-in sort is stable; for a consistent comparator its result
    is the one of this insertion sort. *)
Definition sort (l : list A) : list A := fold_right insert [] l.

End Sort.

End JsArray.

(** ** [PublicationsManager] *)

Module Publications.
Import JsString Control.
Local Open Scope step_scope.

Record Publication := mkPublication {
  id : string;
  type : string;
  featured : bool;
  url : string;
  title : string;
  description : string;
  abstract : option string;
  publishedDate : string;
  tags : list string
}.

Record State := mkState {
  publications : list Publication;
  publicationsGrid : bool;        (* this.publicationsGrid is set *)
  gridElement : option string     (* innerHTML of #publications-grid; None: no such element *)
}.

Definition new_manager (grid : option string) : State := mkState [] false grid.

Definition set_innerHTML (html : string) (s : State) : State :=
  mkState (publications s) (publicationsGrid s)
          (match gridElement s with Some _ => Some html | None => None end).

Section Manager.

(** the time value of [new Date(dateString)]; [None] for an invalid date *)
Variable Date_parse : string -> option Z.
(** [new Date(dateString).toLocaleDateString('en-US', {...})] *)
Variable toLocaleDateString : string -> string.

Definition setupDOM : Step State :=
  fun s => (Returned, mkState (publications s)
                              (match gridElement s with Some _ => true | None => false end)
                              (gridElement s)).

Definition loadingHTML : string :=
  "<div " ++ attr "class" "loading-state text-center py-12" ++ ">"
  ++ "<div " ++ attr "class" "loading-spinner mx-auto mb-4" ++ "></div>"
  ++ "<p " ++ attr "class" "text-gray-600" ++ ">Loading publications...</p></div>".

Definition emptyHTML : string :=
  "<div " ++ attr "class" "empty-state" ++ ">"
  ++ "<p " ++ attr "class" "text-gray-600 text-center"
  ++ ">No publications available at the moment.</p></div>".

Definition errorHTML : string :=
  "<div " ++ attr "class" "error-state" ++ ">"
  ++ "<p " ++ attr "class" "text-red-600 text-center"
  ++ ">Sorry, there was an error loading the publications. Please try again later.</p></div>".

Definition guarded_set (html : string) : Step State :=
  fun s => if publicationsGrid s then (Returned, set_innerHTML html s) else (Returned, s).

Definition showLoadingState : Step State := guarded_set loadingHTML.
Definition showEmptyState : Step State := guarded_set emptyHTML.
Definition showErrorState : Step State := guarded_set errorHTML.
Definition hideLoadingState : Step State := skip.

Definition loadPublications (o : Fetch.Outcome Publication) : Step State :=
  fun s =>
    match o with
    | None => (Raised, s)
    | Some response =>
        if negb (Fetch.ok response) then (Raised, s)          (* HTTP error! status: ... *)
        else match Fetch.json response with
             | None => (Raised, s)
             | Some data =>
                 (Returned,
                  mkState (match data with Some l => l | None => [] end)
                          (publicationsGrid s) (gridElement s))
             end
    end.

Definition getTypeLabel (type : string) : string :=
  if String.eqb type "research-paper" then "Research Paper"
  else if String.eqb type "blog-post" then "Blog Post"
  else if String.eqb type "linkedin-article" then "LinkedIn Article"
  else type.

Definition formatDate (dateString : string) : string := toLocaleDateString dateString.

Definition linkSvg : string :=
  "<svg " ++ attr "viewBox" "0 0 24 24" ++ " " ++ attr "fill" "none" ++ " "
  ++ attr "stroke" "currentColor" ++ " " ++ attr "stroke-width" "2" ++ ">"
  ++ "<path " ++ attr "d" "M18 13v6a2 2 0 0 1-2 2H5a2 2 0 0 1-2-2V8a2 2 0 0 1 2-2h6" ++ "></path>"
  ++ "<polyline " ++ attr "points" "15,3 21,3 21,9" ++ "></polyline>"
  ++ "<line " ++ attr "x1" "10" ++ " " ++ attr "y1" "14" ++ " " ++ attr "x2" "21" ++ " "
  ++ attr "y2" "3" ++ "></line></svg>".

(** The card of one publication (layout whitespace not reproduced). *)
Definition createPublicationCard (publication : Publication) : string :=
  let formattedDate := formatDate (publishedDate publication) in
  let typeLabel := getTypeLabel (type publication) in
  let typeClass := replace (type publication) "-" EmptyString in
  "<article " ++ attr "class" "publication-item" ++ " "
  ++ attr "data-publication-id" (id publication) ++ ">"
  ++ "<div " ++ attr "class" "publication-header" ++ ">"
  ++ "<span " ++ attr "class" ("publication-type " ++ typeClass) ++ ">" ++ typeLabel ++ "</span>"
  ++ (if featured publication
      then "<span " ++ attr "class" "featured-badge" ++ ">Featured</span>"
      else EmptyString)
  ++ "</div>"
  ++ "<h3 " ++ attr "class" "publication-title" ++ ">"
  ++ "<a " ++ attr "href" (url publication) ++ " " ++ attr "target" "_blank" ++ " "
  ++ attr "rel" "noopener noreferrer" ++ ">" ++ title publication ++ "</a></h3>"
  ++ "<p " ++ attr "class" "publication-description" ++ ">" ++ description publication ++ "</p>"
  ++ match abstract publication with
     | Some (String a s) =>
         "<div " ++ attr "class" "publication-abstract" ++ "><strong>Abstract:</strong> "
         ++ String a s ++ "</div>"
     | _ => EmptyString
     end
  ++ "<div " ++ attr "class" "publication-meta" ++ ">"
  ++ "<span " ++ attr "class" "publication-date" ++ ">" ++ formattedDate ++ "</span>"
  ++ "<div " ++ attr "class" "publication-tags" ++ ">"
  ++ join (map (fun tag => "<span " ++ attr "class" "publication-tag" ++ ">" ++ tag ++ "</span>")
               (tags publication))
  ++ "</div></div>"
  ++ "<div " ++ attr "class" "publication-links" ++ ">"
  ++ "<a " ++ attr "href" (url publication) ++ " " ++ attr "target" "_blank" ++ " "
  ++ attr "rel" "noopener noreferrer" ++ " " ++ attr "class" "publication-link" ++ " "
  ++ attr "aria-label" ("Read " ++ title publication) ++ ">" ++ linkSvg
  ++ "Read " ++ getTypeLabel (type publication) ++ "</a></div></article>".

(** The comparator of [renderPublications]: featured publications first,
    then by date, newest first.  The difference of two dates is NaN when
    either is invalid. *)
Definition comparePublications (a b : Publication) : option Z :=
  if featured a && negb (featured b) then Some (-1)%Z
  else if negb (featured a) && featured b then Some 1%Z
  else match Date_parse (publishedDate b), Date_parse (publishedDate a) with
       | Some tb, Some ta => Some (tb - ta)%Z
       | _, _ => None
       end.

Definition renderPublications : Step State :=
  fun s =>
    match publicationsGrid s, publications s with
    | false, _ | _, [] => showEmptyState s
    | true, _ =>
        (* sort() reorders this.publications in place *)
        let sortedPublications := JsArray.sort comparePublications (publications s) in
        let publicationsHTML := join (map createPublicationCard sortedPublications) in
        (Returned,
         set_innerHTML publicationsHTML
           (mkState sortedPublications (publicationsGrid s) (gridElement s)))
    end.

Definition init (o : Fetch.Outcome Publication) : Step State :=
  try_catch
    (setupDOM ;; showLoadingState ;; loadPublications o ;; renderPublications ;; hideLoadingState)
    (hideLoadingState ;; showErrorState).

End Manager.

End Publications.

(** ** [AIEngineeringProjects]: the AI engineering projects page *)

Module AIEngineering.
Import JsString Control.
Local Open Scope step_scope.

Record Project := mkProject {
  id : string;
  title : string;
  description : string;
  technologies : option (list string);
  images : option (list string);
  repository : option string;     (* artifacts?.repository *)
  demo : option string            (* artifacts?.demo *)
}.

Record State := mkState {
  projects : list Project;
  container : option string
    (* innerHTML of #ai-engineering-projects-grid; None: no such element *)
}.

Definition new_manager (grid : option string) : State := mkState [] grid.

Definition set_innerHTML (html : string) (s : State) : State :=
  mkState (projects s) (match container s with Some _ => Some html | None => None end).

(** [loadProjects]: the status of the response is not inspected; a
    rejected fetch and an unparsable body are caught. *)
Definition loadProjects (o : Fetch.Outcome Project) : Step State :=
  fun s =>
    match o with
    | Some response =>
        match Fetch.json response with
        | Some (Some l) => (Returned, mkState l (container s))
        | Some None => (Returned, mkState [] (container s))
        | None => (Returned, mkState [] (container s))
        end
    | None => (Returned, mkState [] (container s))
    end.

Definition githubSvg : string :=
  "<svg " ++ attr "width" "16" ++ " " ++ attr "height" "16" ++ " "
  ++ attr "viewBox" "0 0 24 24" ++ " " ++ attr "fill" "currentColor" ++ ">"
  ++ "<path " ++ attr "d" "M12 0c-6.626 0-12 5.373-12 12 0 5.302 3.438 9.8 8.207 11.387.599.111.793-.261.793-.577v-2.234c-3.338.726-4.033-1.416-4.033-1.416-.546-1.387-1.333-1.756-1.333-1.756-1.089-.745.083-.729.083-.729 1.205.084 1.839 1.237 1.839 1.237 1.07 1.834 2.807 1.304 3.492.997.107-.775.418-1.305.762-1.604-2.665-.305-5.467-1.334-5.467-5.931 0-1.311.469-2.381 1.236-3.221-.124-.303-.535-1.524.117-3.176 0 0 1.008-.322 3.301 1.23.957-.266 1.983-.399 3.003-.404 1.02.005 2.047.138 3.006.404 2.291-1.552 3.297-1.23 3.297-1.23.653 1.653.242 2.874.118 3.176.77.84 1.235 1.911 1.235 3.221 0 4.609-2.807 5.624-5.479 5.921.43.372.823 1.102.823 2.222v3.293c0 .319.192.694.801.576 4.765-1.589 8.199-6.086 8.199-11.386 0-6.627-5.373-12-12-12z"
  ++ "/></svg>".

Definition demoSvg : string :=
  "<svg " ++ attr "width" "16" ++ " " ++ attr "height" "16" ++ " "
  ++ attr "viewBox" "0 0 24 24" ++ " " ++ attr "fill" "none" ++ " "
  ++ attr "stroke" "currentColor" ++ " " ++ attr "stroke-width" "2" ++ ">"
  ++ "<polygon " ++ attr "points" "5,3 19,12 5,21" ++ "/></svg>".

Definition projectLink (href icon label : string) : string :=
  "<a " ++ attr "href" href ++ " " ++ attr "class" "project-link" ++ " "
  ++ attr "target" "_blank" ++ " " ++ attr "rel" "noopener" ++ ">" ++ icon ++ label ++ "</a>".

(** The card of one project (layout whitespace not reproduced). *)
Definition createProjectCard (project : Project) : string :=
  let technologies :=
    match AIEngineering.technologies project with
    | Some t => String.concat ", " (firstn 3 t)
    | None => EmptyString
    end in
  let moreCount :=
    match AIEngineering.technologies project with
    | Some t => (List.length t - 3)%nat
    | None => 0%nat
    end in
  "<div " ++ attr "class" "project-card" ++ " " ++ attr "data-project-id" (id project) ++ ">"
  ++ "<div " ++ attr "class" "project-card-header" ++ ">"
  ++ match images project with
     | Some (String a i :: _) =>
         "<img " ++ attr "src" (String a i) ++ " " ++ attr "alt" (title project) ++ " "
         ++ attr "class" "project-card-image" ++ " " ++ attr "loading" "lazy" ++ ">"
     | _ => "<div " ++ attr "class" "project-card-placeholder" ++ "></div>"
     end
  ++ "<div " ++ attr "class" "project-card-overlay" ++ ">"
  ++ "<a " ++ attr "href" "pharmgpt-project.html" ++ " " ++ attr "class" "project-card-view-btn"
  ++ ">View Details</a></div></div>"
  ++ "<div " ++ attr "class" "project-card-content" ++ ">"
  ++ "<h3 " ++ attr "class" "project-card-title" ++ ">" ++ title project ++ "</h3>"
  ++ "<p " ++ attr "class" "project-card-description" ++ ">" ++ description project ++ "</p>"
  ++ "<div " ++ attr "class" "project-card-technologies" ++ ">"
  ++ "<span " ++ attr "class" "tech-tags" ++ ">" ++ technologies
  ++ (if (0 <? moreCount)%nat
      then " +" ++ Projects.string_of_nat moreCount ++ " more"
      else EmptyString)
  ++ "</span></div>"
  ++ "<div " ++ attr "class" "project-card-actions" ++ ">"
  ++ match repository project with
     | Some (String a r) => projectLink (String a r) githubSvg "Code"
     | _ => EmptyString
     end
  ++ match demo project with
     | Some (String a d) => projectLink (String a d) demoSvg "Demo"
     | _ => EmptyString
     end
  ++ "</div></div></div>".

Definition noProjectsHTML : string :=
  "<p " ++ attr "class" "text-center text-gray-600" ++ ">No projects available at the moment.</p>".

Definition renderProjects : Step State :=
  fun s =>
    match container s with
    | None => (Returned, s)        (* Projects container not found *)
    | Some _ =>
        match projects s with
        | [] => (Returned, set_innerHTML noProjectsHTML s)
        | _ => (Returned, set_innerHTML (join (map createProjectCard (projects s))) s)
        end
    end.

Definition init (o : Fetch.Outcome Project) : Step State :=
  loadProjects o ;; renderProjects.

End AIEngineering.

(** ** The worker's install event *)

Module SWInstall.
Import SW.

(** Assets to cache immediately *)
Definition STATIC_ASSETS : list string :=
  [ "/";
    "/index.html";
    "/dist/css/styles.min.css";
    "/dist/js/scripts.min.js";
    "/assets/images/profile/headshot.svg";
    "/assets/images/fallback-image.svg";
    "/assets/data/projects.json";
    "/assets/data/skills.json";
    "/resume.pdf" ].

Section Install.
Variable location_origin : string.
Variable network : Request -> option Response.

(** the request [cache.addAll] builds from a path *)
Definition asset_request (path : string) : Request :=
  mkRequest (local_url location_origin path) "GET" EmptyString.

(** The fetches of [cache.addAll(paths)]: it rejects unless every request
    resolves with an ok response. *)
Fixpoint fetch_all (paths : list string) : option (list (Request * Response)) :=
  match paths with
  | [] => Some []
  | path :: rest =>
      match network (asset_request path) with
      | Some response =>
          if ok response
          then match fetch_all rest with
               | Some entries => Some ((asset_request path, response) :: entries)
               | None => None
               end
          else None
      | None => None
      end
  end.

(** the puts of a successful [addAll], in order *)
Definition put_all (name : string) (entries : list (Request * Response)) (w : World) : World :=
  fold_left (fun acc e => run_task network (TPut name (fst e) (snd e)) acc) entries w.

(** [cache.addAll(paths)] on the cache [name]: every request is fetched;
    the entries are written only when all of them succeeded.  [None]: the
    promise rejects. *)
Definition cache_addAll (name : string) (paths : list string) (w : World) : option World :=
  let w1 := fold_left (fun acc path => log (EvFetch (asset_request path)) acc) paths w in
  match fetch_all paths with
  | Some entries => Some (put_all name entries w1)
  | None => None
  end.

(** Install event - cache static assets.  The flag tells whether
    [self.skipWaiting()] was reached; a rejection is caught and logged, so
    the promise given to [waitUntil] always resolves. *)
Definition onInstall (w : World) : World * bool :=
  let w1 := open_cache STATIC_CACHE w in
  match cache_addAll STATIC_CACHE STATIC_ASSETS w1 with
  | Some w2 => (w2, true)
  | None =>
      (fold_left (fun acc path => log (EvFetch (asset_request path)) acc) STATIC_ASSETS w1,
       false)
  end.

End Install.

End SWInstall.

(** ** [ProjectsManager]: filter buttons and the modal gallery *)

Module ProjectsView.
Import JsString Control Projects.
Local Open Scope step_scope.

(** A filter button as [createCategoryFilters] writes it. *)
Record Button := mkButton {
  data_category : string;
  active : bool;              (* class 'active' *)
  aria_pressed : string
}.

Definition filterButtons : list Button :=
  [ mkButton "all" true "true";
    mkButton "ai-product" false "false";
    mkButton "ml-engineering" false "false";
    mkButton "research" false "false" ].

(** [b.toString()] *)
Definition bool_toString (b : bool) : string := if b then "true" else "false".

(** The manager with the buttons behind [this.categoryFilters]
    ([None]: the filters were never created). *)
Record View := mkView {
  manager : State;
  buttons : option (list Button)
}.

Definition lift (f : Step State) : Step View :=
  fun v => let (signal, s) := f (manager v) in (signal, mkView s (buttons v)).

Definition createCategoryFilters (env : Env) : Step View :=
  fun v =>
    let (signal, s) := Projects.createCategoryFilters env (manager v) in
    (signal,
     mkView s
       (match projectsGrid (manager v) with
        | Some _ => if filterHeader env then Some filterButtons else buttons v
        | None => buttons v
        end)).

Definition updateFilterButtons : Step View :=
  fun v =>
    match buttons v with
    | None => (Returned, v)
    | Some btns =>
        (Returned,
         mkView (manager v)
           (Some (map (fun btn =>
                         let isActive :=
                           String.eqb (data_category btn) (currentCategory (manager v)) in
                         mkButton (data_category btn) isActive (bool_toString isActive))
                      btns)))
    end.

(** [filterProjects(category)] with the button update that follows the
    rendering *)
Definition filterProjects (env : Env) (category : string) : Step View :=
  lift (Projects.filterProjects env category) ;; updateFilterButtons.


(** *** The gallery of the project modal *)

Record GalleryImage := mkGalleryImage {
  g_src : option string;
  g_data_src : option string;
  g_hidden : bool            (* class 'hidden' *)
}.

Record Indicator := mkIndicator {
  i_active : bool;           (* class 'active' *)
  i_aria_selected : string
}.

Record Modal := mkModal {
  currentProject : option Project;
  currentImageIndex : nat;
  galleryImages : list GalleryImage;   (* the '.project-gallery-image' elements *)
  indicators : list Indicator          (* the '.project-gallery-indicator' elements *)
}.

(** [arr.map((x, index) => f(index, x))], counting from [k] *)
Fixpoint mapi_from {A B} (k : nat) (f : nat -> A -> B) (l : list A) : list B :=
  match l with
  | [] => []
  | x :: l' => f k x :: mapi_from (S k) f l'
  end.

Definition mapi {A B} (f : nat -> A -> B) (l : list A) : list B := mapi_from 0 f l.

(** The elements [createGalleryHTML] writes for a project: the first
    image carries [src], the others [data-src] and the class 'hidden';
    indicators exist only for more than one image. *)
Definition createGallery (project : Project) : list GalleryImage * list Indicator :=
  match images project with
  | None => ([], [])
  | Some [] => ([], [])
  | Some images =>
      (mapi (fun index image =>
               if Nat.eqb index 0
               then mkGalleryImage (Some image) None false
               else mkGalleryImage None (Some image) true) images,
       if (1 <? List.length images)%nat
       then mapi (fun index _ =>
                    mkIndicator (Nat.eqb index 0) (bool_toString (Nat.eqb index 0))) images
       else [])
  end.

(** What [openModal] leaves for a project it found: the project, index
    0 and the freshly written gallery. *)
Definition openGallery (project : Project) : Modal :=
  mkModal (Some project) 0 (fst (createGallery project)) (snd (createGallery project)).

Definition updateGalleryDisplay (m : Modal) : Modal :=
  mkModal (currentProject m) (currentImageIndex m)
    (mapi (fun index img =>
             let isActive := Nat.eqb index (currentImageIndex m) in
             (* Load image if it's becoming active and hasn't been loaded yet *)
             match isActive, g_data_src img with
             | true, Some lazy => mkGalleryImage (Some lazy) None (negb isActive)
             | _, _ => mkGalleryImage (g_src img) (g_data_src img) (negb isActive)
             end)
          (galleryImages m))
    (mapi (fun index indicator =>
             let isActive := Nat.eqb index (currentImageIndex m) in
             mkIndicator isActive (bool_toString isActive))
          (indicators m)).

Definition set_index (i : nat) (m : Modal) : Modal :=
  mkModal (currentProject m) i (galleryImages m) (indicators m).

(** [previousImage()]; reading [images] of a missing project throws *)
Definition previousImage : Step Modal :=
  fun m =>
    match currentProject m with
    | None => (Raised, m)
    | Some project =>
        match images project with
        | None => (Returned, m)
        | Some images =>
            if (List.length images <=? 1)%nat then (Returned, m)
            else
              let index :=
                if Nat.eqb (currentImageIndex m) 0
                then (List.length images - 1)%nat
                else (currentImageIndex m - 1)%nat in
              (Returned, updateGalleryDisplay (set_index index m))
        end
    end.

Definition nextImage : Step Modal :=
  fun m =>
    match currentProject m with
    | None => (Raised, m)
    | Some project =>
        match images project with
        | None => (Returned, m)
        | Some images =>
            if (List.length images <=? 1)%nat then (Returned, m)
            else
              let index :=
                if Nat.eqb (currentImageIndex m) (List.length images - 1)%nat
                then 0%nat
                else (currentImageIndex m + 1)%nat in
              (Returned, updateGalleryDisplay (set_index index m))
        end
    end.

(** the click listener of the indicator at [index] *)
Definition selectImage (index : nat) : Step Modal :=
  fun m => (Returned, updateGalleryDisplay (set_index index m)).

(** what a visitor does in the gallery *)
Inductive Action := Next | Previous | Select (index : nat).

Definition act (a : Action) : Step Modal :=
  match a with
  | Next => nextImage
  | Previous => previousImage
  | Select index => selectImage index
  end.

Fixpoint browse (actions : list Action) (m : Modal) : Modal :=
  match actions with
  | [] => m
  | a :: rest => browse rest (snd (act a m))
  end.

End ProjectsView.

(** ** [PublicationsManager]: filtering and queries *)

Module PublicationsQueries.
Import JsString Control Publications.

Section Manager.
Variable Date_parse : string -> option Z.
Variable toLocaleDateString : string -> string.

(** Method to filter publications by type.  With 'all' the array that
    [sort] reorders in place is [this.publications] itself; assigning
    [innerHTML] on a missing grid throws. *)
Definition filterByType (type : string) : Step State :=
  fun s =>
    let filteredPublications :=
      if String.eqb type "all" then publications s
      else filter (fun pub => String.eqb (Publications.type pub) type) (publications s) in
    let sortedPublications :=
      JsArray.sort (comparePublications Date_parse) filteredPublications in
    let s1 :=
      if String.eqb type "all"
      then mkState sortedPublications (publicationsGrid s) (gridElement s)
      else s in
    let publicationsHTML :=
      join (map (createPublicationCard toLocaleDateString) sortedPublications) in
    if publicationsGrid s1 then (Returned, set_innerHTML publicationsHTML s1)
    else (Raised, s1).

(** Method to get publications by tag *)
Definition getPublicationsByTag (tag : string) (s : State) : list Publication :=
  filter (fun pub =>
            existsb (fun pubTag => includes (toLowerCase pubTag) (toLowerCase tag)) (tags pub))
         (publications s).

(** Method to get featured publications *)
Definition getFeaturedPublications (s : State) : list Publication :=
  filter featured (publications s).

End Manager.

End PublicationsQueries.

(** ** [AccessibilityManager]: the accessibility audit *)

Module Accessibility.
Import JsString.

(** What the audit reads of the document. *)
Record ImageEl := mkImageEl {
  img_alt : string;                   (* img.alt *)
  img_aria_label : option string      (* img.getAttribute('aria-label') *)
}.

(** What [document.querySelector(`label[for="${input.id}"]`)] does for a
    form control: it returns a label, returns [null], or throws a
    SyntaxError when the id breaks the selector (an id holding a double
    quote, for one). *)
Inductive Lookup := Found | Missing | Invalid.

Record InputEl := mkInputEl {
  label_lookup : Lookup;
  input_aria_label : option string
}.

Record Page := mkPage {
  page_images : list ImageEl;         (* document.querySelectorAll('img') *)
  page_inputs : list InputEl;         (* 'input, textarea, select' *)
  page_headings : list nat            (* the level of each h1..h6, in document order *)
}.

Definition nonempty (s : string) : bool :=
  match s with
  | EmptyString => false
  | String _ _ => true
  end.

Definition attribute_set (o : option string) : bool :=
  match o with
  | Some s => nonempty s
  | None => false
  end.

(** Check for missing alt text *)
Fixpoint image_issues (index : nat) (images : list ImageEl) : list string :=
  match images with
  | [] => []
  | img :: rest =>
      (if negb (nonempty (img_alt img)) && negb (attribute_set (img_aria_label img))
       then [("Image " ++ Projects.string_of_nat (index + 1) ++ " missing alt text")%string]
       else [])
      ++ image_issues (S index) rest
  end%list.

(** Check for missing form labels.  The label is looked up for every
    control, before its aria-label is read; [None]: the lookup threw. *)
Fixpoint input_issues (index : nat) (inputs : list InputEl) : option (list string) :=
  match inputs with
  | [] => Some []
  | input :: rest =>
      match label_lookup input with
      | Invalid => None
      | label =>
          let missing :=
            match label with
            | Found => false
            | _ => negb (attribute_set (input_aria_label input))
            end in
          match input_issues (S index) rest with
          | Some issues =>
              Some ((if missing
                     then [("Form input " ++ Projects.string_of_nat (index + 1)
                            ++ " missing label")%string]
                     else []) ++ issues)%list
          | None => None
          end
      end
  end.

(** Check for proper heading hierarchy *)
Fixpoint heading_issues (index lastLevel : nat) (headings : list nat) : list string :=
  match headings with
  | [] => []
  | level :: rest =>
      (if (lastLevel + 1 <? level)%nat
       then [("Heading level skip at heading " ++ Projects.string_of_nat (index + 1))%string]
       else [])
      ++ heading_issues (S index) level rest
  end%list.

(** The issues found, or [None] when a label lookup threw: nothing
    catches it, and the headings are not reached. *)
Definition runAccessibilityAudit (page : Page) : option (list string) :=
  let images := image_issues 0 (page_images page) in
  match input_issues 0 (page_inputs page) with
  | Some inputs => Some (images ++ inputs ++ heading_issues 0 0 (page_headings page))%list
  | None => None
  end.

End Accessibility.

(** ** Vocabulary of the properties *)

Module SWSpec.
Import SW.

(** the response stored for [u] in the cache named [name] *)
Definition cache_lookup (cs : CacheStorage) (name : string) (u : URL) : option Response :=
  match caches_get cs name with
  | Some c => cache_match c u
  | None => None
  end.

(** [r] is a response held by Cache Storage: [caches.match] gives it for some URL *)
Definition cached (cs : CacheStorage) (r : Response) : Prop :=
  exists u, caches_match cs u = Some r.

(** The three caching policies, and the selection as the specification
    words it: static-asset patterns first, then the dynamic image
    patterns, then data paths and everything else. *)
Inductive Policy := CacheFirst | StaleWhileRevalidate | NetworkFirst.

Definition policy_of (pathname : string) : Policy :=
  if isStaticAsset pathname then CacheFirst
  else if isDynamicAsset pathname then StaleWhileRevalidate
  else if isDataRequest pathname then NetworkFirst
  else NetworkFirst.

Definition run_policy (network : Request -> option Response) (p : Policy)
  : Request -> World -> Completion * World :=
  match p with
  | CacheFirst => cacheFirst network
  | StaleWhileRevalidate => staleWhileRevalidate network
  | NetworkFirst => networkFirst network
  end.

(** a put on the dynamic cache *)
Definition is_dynamic_put (t : Task) : Prop :=
  match t with
  | TPut name _ _ => name = DYNAMIC_CACHE
  | TRevalidate _ => False
  end.

(** the two caches of the current version *)
Definition is_current (name : string) : bool :=
  String.eqb name STATIC_CACHE || String.eqb name DYNAMIC_CACHE.

(** what the page may receive while the network is down: a response that
    Cache Storage held, or a 503 *)
Definition offline_answer (cs : CacheStorage) (c : Completion) : Prop :=
  match c with
  | Normal (Some r) => cached cs r \/ status r = 503%Z
  | Normal None => False
  | Thrown => False
  end.

End SWSpec.

Module ImageSpec.
Import ImageOptimizer.

(** the placeholder images the handler can choose *)
Definition fallbackSvgs : list string :=
  [ fallbackImage;
    categoryFallbacks "technical-diagram";
    categoryFallbacks "research-plot";
    categoryFallbacks "project-screenshot" ].

(** The fallback by context, as the specification words it: the category
    of the image's own class or of an enclosing element, else the generic
    image. *)
Definition fallback_for (img : Img) : string :=
  if closest img "technical-diagram" then categoryFallbacks "technical-diagram"
  else if closest img "research-plot" then categoryFallbacks "research-plot"
  else if closest img "project-screenshot" then categoryFallbacks "project-screenshot"
  else if contains (classList img) "artifact-image" then categoryFallbacks "technical-diagram"
  else fallbackImage.

End ImageSpec.

Module ProjectsSpec.
Import Projects.

Definition ai_path : string := "assets/data/ai-product-projects.json".
Definition ml_path : string := "assets/data/ml-engineering-projects.json".
Definition research_path : string := "assets/data/research-projects.json".

(** [path] is fetched successfully and its JSON holds the array [l] *)
Definition serves (env : Env) (path : string) (l : list Project) : Prop :=
  exists r, fetch env path = Some r /\ Fetch.ok r = true /\ Fetch.json r = Some (Some l).

(** nothing usable comes from [path]: the fetch rejects, the status is
    not ok, or the body does not parse *)
Definition fails (env : Env) (path : string) : Prop :=
  match fetch env path with
  | None => True
  | Some r => Fetch.ok r = false \/ Fetch.json r = None
  end.

(** the entries of the three files in loading order, each with the
    category of its file *)
Definition loaded (ai ml research : list Project) : list Project :=
  (map (withCategory "ai-product") ai
   ++ map (withCategory "ml-engineering") ml
   ++ map (withCategory "research") research)%list.

(** one card per entry, in order *)
Definition cards (l : list Project) : string := JsString.join (map createProjectCard l).

End ProjectsSpec.

Module RendererSpec.

(** Fetching the data failed: a network error, a non-ok status or an
    unparsable body. *)
Definition failed {A} (o : Fetch.Outcome A) : Prop :=
  match o with
  | None => True
  | Some r => Fetch.ok r = false \/ Fetch.json r = None
  end.

(** No body could be read: a network error or an unparsable body. *)
Definition unreadable {A} (o : Fetch.Outcome A) : Prop :=
  match o with
  | None => True
  | Some r => Fetch.json r = None
  end.

End RendererSpec.

Module PublicationsSpec.
Import Publications.

Section Dates.
Variable Date_parse : string -> option Z.

(** the publication's date is a valid one *)
Definition dated (p : Publication) : Prop := Date_parse (publishedDate p) <> None.

Definition time (p : Publication) : Z :=
  match Date_parse (publishedDate p) with
  | Some t => t
  | None => 0%Z
  end.

(** [a] may stand before [b] in the grid: a featured publication before
    a non-featured one, and otherwise the newer (or equally old) first. *)
Definition precedes (a b : Publication) : Prop :=
  (featured a = true /\ featured b = false)
  \/ (featured a = featured b /\ (time b <= time a)%Z).

End Dates.

End PublicationsSpec.

Module SWStoreSpec.
Import SW.

(** two worlds with the same caches and the same pending reactions (the
    traces may differ) *)
Definition same_store (w1 w2 : World) : Prop :=
  caches w1 = caches w2 /\ pending w1 = pending w2.

(** how many fetches a trace holds *)
Definition fetch_count (evs : list Event) : nat :=
  List.length (filter (fun e => match e with EvFetch _ => true | _ => false end) evs).

(** every response [caches.match] can give has an ok status *)
Definition only_ok (cs : CacheStorage) : Prop :=
  forall u r, caches_match cs u = Some r -> ok r = true.

End SWStoreSpec.

Module ProjectsViewSpec.
Import Projects ProjectsView.



(** the image URL an element stands for: its pending [data-src], else
    its [src] *)
Definition url_of (g : GalleryImage) : option string :=
  match g_data_src g with
  | Some u => Some u
  | None => g_src g
  end.

(** The gallery shows the current image of [imgs]: the index is in
    range, the elements stand for the project's images in order, all but
    the current one are hidden, the current one has its [src], and the
    indicator of the current image is the active one. *)
Definition shows (imgs : list string) (m : Modal) : Prop :=
  (currentImageIndex m < List.length imgs)%nat
  /\ map url_of (galleryImages m) = map Some imgs
  /\ (forall i g, nth_error (galleryImages m) i = Some g ->
                  g_hidden g = negb (Nat.eqb i (currentImageIndex m)))
  /\ (forall g, nth_error (galleryImages m) (currentImageIndex m) = Some g ->
                g_src g = nth_error imgs (currentImageIndex m))
  /\ List.length (indicators m)
     = (if (1 <? List.length imgs)%nat then List.length imgs else 0%nat)
  /\ (forall j ind, nth_error (indicators m) j = Some ind ->
                    i_active ind = Nat.eqb j (currentImageIndex m)
                    /\ i_aria_selected ind = bool_toString (Nat.eqb j (currentImageIndex m))).

(** an action the gallery of [n] images offers *)
Definition offered (n : nat) (a : Action) : Prop :=
  match a with
  | Select index => (index < n)%nat
  | _ => True
  end.

End ProjectsViewSpec.

Module AccessibilitySpec.
Import Accessibility.

(** the level of the heading before the [i]-th one; 0 before the first *)
Definition level_before (headings : list nat) (i : nat) : nat :=
  match i with
  | O => 0
  | S j => nth j headings 0
  end%nat.

(** no heading is more than one level below the heading before it *)
Definition no_level_skip (headings : list nat) : Prop :=
  forall i level, nth_error headings i = Some level ->
                  (level <= level_before headings i + 1)%nat.

Definition described (img : ImageEl) : Prop :=
  img_alt img <> EmptyString \/ attribute_set (img_aria_label img) = true.

Definition labelled (input : InputEl) : Prop :=
  label_lookup input = Found \/ attribute_set (input_aria_label input) = true.

(** the label lookup of the control does not throw *)
Definition searchable (input : InputEl) : Prop := label_lookup input <> Invalid.

End AccessibilitySpec.

(** ** Concrete pages, requests and data used by the examples *)

Module Examples.

Definition site : string := "https://portfolio.example".

(** a network that is down *)
Definition offline : SW.Request -> option SW.Response := fun _ => None.

Definition get (path dest : string) : SW.Request :=
  SW.mkRequest (SW.mkURL site path EmptyString) "GET" dest.

Definition screenshot : SW.Request := get "/assets/images/projects/app/dashboard.png" "image".
Definition stylesheet : SW.Request := get "/assets/css/main.css" "style".
Definition page : SW.Request := get "/about.html" "document".

Definition fresh : SW.Response := SW.mkResponse 200 "fresh".
Definition stale : SW.Response := SW.mkResponse 200 "stale".

(** a network that answers every request with [fresh] *)
Definition online : SW.Request -> option SW.Response := fun _ => Some fresh.

(** a network that answers every request with a page naming its path *)
Definition server : SW.Request -> option SW.Response :=
  fun req => Some (SW.mkResponse 200 (SW.pathname (SW.url req))).

Definition empty_world : SW.World := SW.mkWorld [] [] [].

(** the dynamic cache holds a stale copy of the screenshot *)
Definition warm_world : SW.World :=
  SW.mkWorld [(SW.STATIC_CACHE, []); (SW.DYNAMIC_CACHE, [(SW.url screenshot, stale)])] [] [].

(** caches of an earlier version next to the current ones *)
Definition upgraded_world : SW.World :=
  SW.mkWorld [("portfolio-static-v1", [(SW.url stylesheet, stale)]);
              (SW.STATIC_CACHE, [(SW.url stylesheet, fresh)]);
              ("portfolio-v2", []);
              (SW.DYNAMIC_CACHE, [])] [] [].

(** a project card image that has not been loaded yet *)
Definition card_image : ImageOptimizer.Img :=
  ImageOptimizer.mkImg EmptyString ["lazy-image"; "project-card-img"; "project-screenshot"]
    (Some "assets/images/projects/app/dashboard.png") None
    [["project-card-image"]; ["project-card"]] (Some "Dashboard") None.

(** no image can be fetched *)
Definition unreachable : string -> bool := fun _ => false.

Definition json_ok {A} (l : list A) : Fetch.Outcome A :=
  Some (Fetch.mkJsonResponse 200 (Some (Some l))).

Definition pharmgpt : Projects.Project :=
  Projects.mkProject "pharmgpt" "PharmGPT" "engineering"
    "Domain assistant for pharmacology questions."
    (Some ["Python"; "PyTorch"; "FastAPI"; "Docker"]) None.

Definition autodescribe : Projects.Project :=
  Projects.mkProject "autodescribe" "AutoDescribe" "product"
    "Product description generator." (Some ["RAG"]) (Some ["assets/images/projects/a.svg"]).

(** three data files, one entry in the first two, none in the third *)
Definition project_files (path : string) : Fetch.Outcome Projects.Project :=
  if String.eqb path "assets/data/ai-product-projects.json" then json_ok [autodescribe]
  else if String.eqb path "assets/data/ml-engineering-projects.json" then json_ok [pharmgpt]
  else json_ok [].

Definition projects_page : Projects.Env := Projects.mkEnv project_files true None.

(** three valid data files without any entry *)
Definition empty_files_page : Projects.Env := Projects.mkEnv (fun _ => json_ok []) true None.

(** every data file answers 404 with an HTML body *)
Definition missing_files_page : Projects.Env :=
  Projects.mkEnv (fun _ => Some (Fetch.mkJsonResponse 404 None)) true None.

(** the projects page with the repository's image optimizer installed as
    [window.imageOptimizer]: that class has no [addLazyImages] *)
Definition optimizer_page : Projects.Env := Projects.mkEnv project_files true (Some false).

Definition pharmgpt_card : AIEngineering.Project :=
  AIEngineering.mkProject "pharmgpt" "PharmGPT"
    "Domain assistant for pharmacology questions."
    (Some ["Python"; "PyTorch"; "FastAPI"; "Docker"]) None
    (Some "https://github.example/pharmgpt") None.

(** a 500 response whose body is nevertheless a well-formed data file *)
Definition server_error_with_data : Fetch.Outcome AIEngineering.Project :=
  Some (Fetch.mkJsonResponse 500 (Some (Some [pharmgpt_card]))).

(** a 404 response with an HTML body *)
Definition not_found {A} : Fetch.Outcome A := Some (Fetch.mkJsonResponse 404 None).

Definition publication (id date : string) (featured : bool) : Publications.Publication :=
  Publications.mkPublication id "blog-post" featured "https://blog.example/post" id
    "A post." None date ["ml"].

Definition post_2023 := publication "older" "2023-03-01" false.
Definition post_2024 := publication "newer" "2024-06-15" false.
Definition paper_2022 := publication "paper" "2022-11-20" true.
Definition post_undated := publication "draft" "soon" false.

(** the time values of the dates above, in milliseconds *)
Definition parse_date (s : string) : option Z :=
  if String.eqb s "2022-11-20" then Some 1668902400000%Z
  else if String.eqb s "2023-03-01" then Some 1677628800000%Z
  else if String.eqb s "2024-06-15" then Some 1718409600000%Z
  else None.

Definition show_date (s : string) : string := s.

(** a network that answers every request with a 404 *)
Definition missing : SW.Request -> option SW.Response :=
  fun _ => Some (SW.mkResponse 404 "Not Found").

(** a network on which only the skills data file is missing *)
Definition without_skills : SW.Request -> option SW.Response :=
  fun req =>
    if String.eqb (SW.pathname (SW.url req)) "/assets/data/skills.json"
    then Some (SW.mkResponse 404 "Not Found")
    else Some fresh.

Definition gallery_project : Projects.Project :=
  Projects.mkProject "pharmgpt" "PharmGPT" "ml-engineering" "Domain assistant."
    (Some ["Python"]) (Some ["a.svg"; "b.svg"; "c.svg"]).

(** the state [init] leaves on [projects_page], with its filter bar *)
Definition projects_view : ProjectsView.View :=
  ProjectsView.mkView
    (snd (Projects.init projects_page (Projects.new_manager (Some EmptyString))))
    (Some ProjectsView.filterButtons).

Definition tagged_post : Publications.Publication :=
  Publications.mkPublication "rag" "research-paper" false "https://blog.example/rag"
    "Retrieval" "A paper." None "2023-03-01" ["Machine Learning"; "RAG"].

End Examples.

(** * Properties *)

(** ** Cache Storage *)

Module CacheFacts.
Import SW SWSpec.

Lemma URL_eqb_refl (u : URL) : URL_eqb u u = true.
Proof.
  unfold URL_eqb. now rewrite !String.eqb_refl.
Qed.

Lemma URL_eqb_eq (a b : URL) : URL_eqb a b = true <-> a = b.
Proof.
  split.
  - unfold URL_eqb. intros H.
    apply andb_true_iff in H as [H Hs]. apply andb_true_iff in H as [Ho Hp].
    apply String.eqb_eq in Ho, Hp, Hs.
    destruct a, b; simpl in *; congruence.
  - intros ->. apply URL_eqb_refl.
Qed.

Lemma cache_match_put_same (c : Cache) (u : URL) (r : Response) :
  cache_match (cache_put c u r) u = Some r.
Proof.
  induction c as [|[k r0] c IH]; simpl.
  - now rewrite URL_eqb_refl.
  - destruct (URL_eqb k u) eqn:E; simpl; now rewrite E.
Qed.

Lemma caches_get_open_same (cs : CacheStorage) (name : string) :
  exists c, caches_get (caches_open cs name) name = Some c.
Proof.
  unfold caches_open. destruct (caches_get cs name) eqn:E.
  - eauto.
  - exists []. induction cs as [|[n c] cs IH]; simpl in *.
    + now rewrite String.eqb_refl.
    + destruct (String.eqb n name); [discriminate | auto].
Qed.

Lemma caches_get_open_other (cs : CacheStorage) (name other : string) :
  name <> other -> caches_get (caches_open cs name) other = caches_get cs other.
Proof.
  intros Hne. unfold caches_open. destruct (caches_get cs name); [reflexivity|].
  induction cs as [|[n c] cs IH]; simpl.
  - apply String.eqb_neq in Hne. now rewrite Hne.
  - now rewrite IH.
Qed.

Lemma caches_get_put_same (cs : CacheStorage) (name : string) (u : URL) (r : Response) (c : Cache) :
  caches_get cs name = Some c ->
  caches_get (caches_put cs name u r) name = Some (cache_put c u r).
Proof.
  induction cs as [|[n c0] cs IH]; simpl; [discriminate|].
  destruct (String.eqb n name) eqn:E; simpl; rewrite E.
  - congruence.
  - exact IH.
Qed.

Lemma caches_get_put_other (cs : CacheStorage) (name other : string) (u : URL) (r : Response) :
  name <> other -> caches_get (caches_put cs name u r) other = caches_get cs other.
Proof.
  intros Hne. induction cs as [|[n c0] cs IH]; simpl; [reflexivity|].
  destruct (String.eqb n name) eqn:E; simpl.
  - apply String.eqb_eq in E. subst n.
    apply String.eqb_neq in Hne. now rewrite Hne.
  - now rewrite IH.
Qed.

(** What [caches.open(name).then(c => c.put(request, response))] leaves
    in the cache [name]. *)
Lemma lookup_open_put (cs : CacheStorage) (name : string) (u : URL) (r : Response) :
  cache_lookup (caches_put (caches_open cs name) name u r) name u = Some r.
Proof.
  unfold cache_lookup.
  destruct (caches_get_open_same cs name) as [c Hc].
  rewrite (caches_get_put_same _ _ _ _ _ Hc).
  apply cache_match_put_same.
Qed.

Lemma lookup_open_put_other (cs : CacheStorage) (name other : string) (u v : URL) (r : Response) :
  name <> other ->
  cache_lookup (caches_put (caches_open cs name) name u r) other v = cache_lookup cs other v.
Proof.
  intros Hne. unfold cache_lookup.
  now rewrite caches_get_put_other, caches_get_open_other.
Qed.

Lemma static_is_not_dynamic : DYNAMIC_CACHE <> STATIC_CACHE.
Proof. discriminate. Qed.

End CacheFacts.

(** ** Pending reactions *)

Module QueueFacts.
Import SW SWSpec CacheFacts.

Section Network.
Variable network : Request -> option Response.

Local Notation "'run'" := (fun acc t => run_task network t acc) (only parsing).

Lemma drain_snoc (w : World) (P : list Task) (t : Task) :
  pending w = (P ++ [t])%list ->
  drain network w = run_task network t (fold_left run P (set_pending [] w)).
Proof.
  intros Hp. unfold drain. rewrite Hp, fold_left_app. reflexivity.
Qed.

Lemma run_task_put_pending (name : string) (req : Request) (r : Response) (w : World) :
  pending (run_task network (TPut name req r) w) = pending w.
Proof. reflexivity. Qed.

Lemma run_task_revalidate_caches (req : Request) (w : World) :
  caches (run_task network (TRevalidate req) w) = caches w.
Proof.
  simpl. destruct (network req) as [r|]; [destruct (ok r)|]; reflexivity.
Qed.

Lemma run_task_dynamic (t : Task) (w : World) :
  Forall is_dynamic_put (pending w) ->
  Forall is_dynamic_put (pending (run_task network t w)).
Proof.
  intros H. destruct t as [name req r|req]; simpl; [exact H|].
  destruct (network req) as [r|]; [destruct (ok r)|]; simpl; try exact H.
  apply Forall_app. split; [exact H|]. constructor; [reflexivity|constructor].
Qed.

(** Whatever was queued, a pass leaves only puts on the dynamic cache
    behind. *)
Lemma fold_run_dynamic (P : list Task) (w : World) :
  Forall is_dynamic_put (pending w) ->
  Forall is_dynamic_put (pending (fold_left run P w)).
Proof.
  revert w. induction P as [|t P IH]; intros w H; simpl; [exact H|].
  apply IH, run_task_dynamic, H.
Qed.

Lemma drain_dynamic (w : World) : Forall is_dynamic_put (pending (drain network w)).
Proof.
  unfold drain. apply fold_run_dynamic. constructor.
Qed.

(** Puts on the dynamic cache leave every other cache as it is. *)
Lemma fold_run_static (Q : list Task) (w : World) (u : URL) :
  Forall is_dynamic_put Q ->
  cache_lookup (caches (fold_left run Q w)) STATIC_CACHE u
  = cache_lookup (caches w) STATIC_CACHE u.
Proof.
  revert w. induction Q as [|t Q IH]; intros w H; simpl; [reflexivity|].
  inversion H as [|t' Q' Ht HQ]; subst.
  rewrite (IH _ HQ).
  destruct t as [name req r|req]; simpl in Ht; [subst name|contradiction].
  simpl. apply lookup_open_put_other, static_is_not_dynamic.
Qed.

(** After [settle] nothing is pending. *)
Lemma fold_run_puts_pending (Q : list Task) (w : World) :
  Forall is_dynamic_put Q ->
  pending (fold_left run Q w) = pending w.
Proof.
  revert w. induction Q as [|t Q IH]; intros w H; simpl; [reflexivity|].
  inversion H as [|t' Q' Ht HQ]; subst.
  rewrite (IH _ HQ).
  destruct t; simpl in Ht; [reflexivity|contradiction].
Qed.

Lemma settle_quiescent (w : World) : pending (settle network w) = [].
Proof.
  unfold settle. unfold drain at 1.
  rewrite fold_run_puts_pending; [reflexivity|apply drain_dynamic].
Qed.

End Network.

End QueueFacts.

(** ** The service worker *)

Module WorkerFacts.
Import SW SWSpec CacheFacts QueueFacts.

Section Worker.
Variable location_origin : string.
Variable network : Request -> option Response.

Lemma policy_of_cases (p : string) :
  (isStaticAsset p = true /\ policy_of p = CacheFirst)
  \/ (isStaticAsset p = false /\ isDynamicAsset p = true /\ policy_of p = StaleWhileRevalidate)
  \/ (isStaticAsset p = false /\ isDynamicAsset p = false /\ policy_of p = NetworkFirst).
Proof.
  unfold policy_of.
  destruct (isStaticAsset p); [now left|].
  destruct (isDynamicAsset p); [right; now left|].
  right; right. now destruct (isDataRequest p).
Qed.

Lemma handleRequest_run_policy (req : Request) (w : World) :
  handleRequest location_origin network req w
  = orOffline location_origin req (run_policy network (policy_of (pathname (url req))) req w).
Proof.
  unfold handleRequest, policy_of.
  destruct (isStaticAsset _); [reflexivity|].
  destruct (isDynamicAsset _); [reflexivity|].
  now destruct (isDataRequest _).
Qed.

(** C1.  A same-origin GET request is answered by [handleRequest], which
    runs exactly one of cache-first, stale-while-revalidate and
    network-first, chosen from the pathname alone: the static-asset
    patterns give cache-first; otherwise the dynamic image patterns give
    stale-while-revalidate; otherwise (data paths and all the rest)
    network-first. *)
Theorem C1_dispatch_by_pathname (req : Request) (w : World) :
  method req = "GET" ->
  origin (url req) = location_origin ->
  let p := pathname (url req) in
  onFetch location_origin network req w
  = (let (c, w') := orOffline location_origin req (run_policy network (policy_of p) req w)
     in (Some c, w'))
  /\ (isStaticAsset p = true ->
      handleRequest location_origin network req w
      = orOffline location_origin req (cacheFirst network req w))
  /\ (isStaticAsset p = false -> isDynamicAsset p = true ->
      handleRequest location_origin network req w
      = orOffline location_origin req (staleWhileRevalidate network req w))
  /\ (isStaticAsset p = false -> isDynamicAsset p = false ->
      handleRequest location_origin network req w
      = orOffline location_origin req (networkFirst network req w)).
Proof.
  intros Hm Ho p. split; [|split; [|split]].
  - subst p. unfold onFetch. rewrite Hm, Ho, !String.eqb_refl. simpl.
    now rewrite handleRequest_run_policy.
  - intros Hs. unfold handleRequest. fold p. now rewrite Hs.
  - intros Hs Hd. unfold handleRequest. fold p. now rewrite Hs, Hd.
  - intros Hs Hd. unfold handleRequest. fold p. rewrite Hs, Hd.
    now destruct (isDataRequest p).
Qed.

(** C2.  When a cached response exists, [staleWhileRevalidate] returns it
    with the fetch issued but not settled: the caches are as before and
    the revalidation is still pending.  Once the pending reactions have
    run, an ok network response is the entry of the request in the
    dynamic cache. *)
Theorem C2_stale_while_revalidate (req : Request) (w : World) (cachedResponse : Response) :
  caches_match (caches w) (url req) = Some cachedResponse ->
  let w' := snd (staleWhileRevalidate network req w) in
  fst (staleWhileRevalidate network req w) = Normal (Some cachedResponse)
  /\ caches w' = caches w
  /\ trace w' = (trace w ++ [EvFetch req])%list
  /\ pending w' = (pending w ++ [TRevalidate req])%list
  /\ (forall response, network req = Some response -> ok response = true ->
      cache_lookup (caches (settle network w')) DYNAMIC_CACHE (url req) = Some response).
Proof.
  intros Hc. unfold staleWhileRevalidate. rewrite Hc. simpl.
  repeat split; try reflexivity.
  intros response Hn Hok.
  unfold settle.
  set (w' := enqueue (TRevalidate req) (log (EvFetch req) w)).
  assert (Hd : exists W, drain network w' = enqueue (TPut DYNAMIC_CACHE req response) W).
  { rewrite (drain_snoc network w' (pending w) (TRevalidate req)) by reflexivity.
    simpl. rewrite Hn, Hok. eauto. }
  destruct Hd as [W ->].
  rewrite (drain_snoc network _ (pending W) (TPut DYNAMIC_CACHE req response)) by reflexivity.
  simpl. apply lookup_open_put.
Qed.

(** C4.  [cacheFirst] returns a cached response without touching the
    world (no fetch is issued).  Without one it fetches: the network
    response is returned, and when it is ok it is the entry of the request
    in the static cache once the pending put has run. *)
Theorem C4_cache_first (req : Request) (w : World) :
  (forall cachedResponse,
      caches_match (caches w) (url req) = Some cachedResponse ->
      cacheFirst network req w = (Normal (Some cachedResponse), w))
  /\ (forall networkResponse,
      caches_match (caches w) (url req) = None ->
      network req = Some networkResponse ->
      let w' := snd (cacheFirst network req w) in
      fst (cacheFirst network req w) = Normal (Some networkResponse)
      /\ trace w' = (trace w ++ [EvFetch req; EvSettled req (Some networkResponse)])%list
      /\ (ok networkResponse = true ->
          cache_lookup (caches (settle network w')) STATIC_CACHE (url req)
          = Some networkResponse)).
Proof.
  split.
  - intros c Hc. unfold cacheFirst. now rewrite Hc.
  - intros r Hc Hn. unfold cacheFirst. rewrite Hc, Hn. simpl.
    split; [reflexivity|]. split.
    + destruct (ok r); simpl; now rewrite <- app_assoc.
    + intros Hok. rewrite Hok.
      set (w2 := open_cache STATIC_CACHE
                   (log (EvSettled req (Some r)) (log (EvFetch req) w))).
      unfold settle.
      rewrite (drain_snoc network (enqueue (TPut STATIC_CACHE req r) w2)
                 (pending w) (TPut STATIC_CACHE req r)) by reflexivity.
      set (W0 := fold_left _ (pending w) _).
      unfold drain at 1.
      rewrite fold_run_static.
      * simpl. apply lookup_open_put.
      * rewrite run_task_put_pending. subst W0.
        apply fold_run_dynamic. constructor.
Qed.

(** C8.  The fetch listener calls [respondWith] exactly for GET requests
    of the worker's own origin; for any other request it returns without
    responding and leaves the world as it is. *)
Theorem C8_fetch_listener_gate (req : Request) (w : World) :
  (fst (onFetch location_origin network req w) <> None
   <-> method req = "GET" /\ origin (url req) = location_origin)
  /\ onFetch location_origin network req w
     = if String.eqb (method req) "GET" && String.eqb (origin (url req)) location_origin
       then (let (c, w') := handleRequest location_origin network req w in (Some c, w'))
       else (None, w).
Proof.
  unfold onFetch.
  destruct (String.eqb (method req) "GET") eqn:Em; simpl.
  - destruct (String.eqb (origin (url req)) location_origin) eqn:Eo; simpl.
    + apply String.eqb_eq in Em, Eo.
      destruct (handleRequest location_origin network req w) as [c w'].
      simpl. repeat split; auto; discriminate.
    + apply String.eqb_neq in Eo. split; [|reflexivity].
      split; [intros H; now elim H | intros [_ H]; contradiction].
  - apply String.eqb_neq in Em. split; [|reflexivity].
    split; [intros H; now elim H | intros [H _]; contradiction].
Qed.

End Worker.

End WorkerFacts.

(** ** Offline behaviour and activation *)

Module LifecycleFacts.
Import SW SWSpec CacheFacts.

Section Offline.
Variable location_origin : string.
Variable network : Request -> option Response.

Lemma handleOffline_answer (req : Request) (w : World) :
  offline_answer (caches w) (fst (handleOffline location_origin req w))
  /\ caches (snd (handleOffline location_origin req w)) = caches w.
Proof.
  unfold handleOffline.
  destruct (caches_match (caches w) (url req)) eqn:E1; simpl.
  { split; [left; now exists (url req) | reflexivity]. }
  destruct (String.eqb (destination req) "document").
  { destruct (caches_match (caches w) (local_url location_origin "/index.html")) eqn:E2; simpl;
      (split; [|reflexivity]); [left; eexists; exact E2 | now right]. }
  destruct (String.eqb (destination req) "image").
  { destruct (caches_match (caches w)
                (local_url location_origin "/assets/images/fallback-image.svg")) eqn:E3; simpl;
      (split; [|reflexivity]); [left; eexists; exact E3 | now right]. }
  simpl. split; [now right | reflexivity].
Qed.

(** With the network down, cache-first and network-first answer with a
    cached response or a 503. *)
Lemma cacheFirst_offline (req : Request) (w : World) :
  network req = None ->
  offline_answer (caches w)
    (fst (orOffline location_origin req (cacheFirst network req w))).
Proof.
  intros Hn. unfold cacheFirst.
  destruct (caches_match (caches w) (url req)) eqn:E; simpl.
  - left. now exists (url req).
  - rewrite Hn. simpl.
    exact (proj1 (handleOffline_answer req (log (EvSettled req None) (log (EvFetch req) w)))).
Qed.

Lemma networkFirst_offline (req : Request) (w : World) :
  network req = None ->
  offline_answer (caches w)
    (fst (orOffline location_origin req (networkFirst network req w))).
Proof.
  intros Hn. unfold networkFirst. rewrite Hn. simpl.
  destruct (caches_match (caches w) (url req)) eqn:E; simpl.
  - left. now exists (url req).
  - exact (proj1 (handleOffline_answer req (log (EvSettled req None) (log (EvFetch req) w)))).
Qed.

(** Stale-while-revalidate swallows the rejection: without a cached
    response it resolves with [null], and [handleOffline] is never
    reached. *)
Lemma staleWhileRevalidate_offline (req : Request) (w : World) :
  network req = None ->
  fst (orOffline location_origin req (staleWhileRevalidate network req w))
  = Normal (caches_match (caches w) (url req)).
Proof.
  intros Hn. unfold staleWhileRevalidate.
  destruct (caches_match (caches w) (url req)); simpl; [reflexivity|].
  now rewrite Hn.
Qed.

End Offline.

(** C3, at the failing input: a screenshot request, nothing cached, the
    network down.  The request is routed to stale-while-revalidate, whose
    [catch] turns the rejection into [null]; [handleRequest] resolves with
    [null], not with a cached response or a 503. *)
Theorem C3_offline_image_resolves_null :
  SWSpec.policy_of (pathname (url Examples.screenshot)) = StaleWhileRevalidate
  /\ onFetch Examples.site Examples.offline Examples.screenshot Examples.empty_world
     = (Some (Normal None),
        mkWorld [] [] [EvFetch Examples.screenshot; EvSettled Examples.screenshot None])
  /\ ~ offline_answer (caches Examples.empty_world)
         (fst (handleRequest Examples.site Examples.offline Examples.screenshot
                 Examples.empty_world)).
Proof.
  split; [reflexivity|]. split; [reflexivity|].
  simpl. intros H. exact H.
Qed.

(** *** Activation *)

Lemma filter_filter {A} (p q : A -> bool) (l : list A) :
  filter p (filter q l) = filter (fun x => q x && p x) l.
Proof.
  induction l as [|a l IH]; simpl; [reflexivity|].
  destruct (q a); simpl; [destruct (p a)|]; now rewrite IH.
Qed.

Lemma fold_delete_filter (names : list string) (cs : CacheStorage) :
  fold_left
    (fun cs cacheName =>
       if negb (String.eqb cacheName STATIC_CACHE) && negb (String.eqb cacheName DYNAMIC_CACHE)
       then caches_delete cs cacheName
       else cs) names cs
  = filter (fun nc => forallb (fun n => is_current n || negb (String.eqb (fst nc) n)) names) cs.
Proof.
  revert cs. induction names as [|n names IH]; intros cs; simpl.
  - induction cs as [|a cs IHcs]; simpl; congruence.
  - rewrite IH. unfold is_current at 2.
    destruct (String.eqb n STATIC_CACHE); simpl; [reflexivity|].
    destruct (String.eqb n DYNAMIC_CACHE); simpl; [reflexivity|].
    unfold caches_delete. now rewrite filter_filter.
Qed.

(** Activation keeps exactly the caches of the current version, in their
    order and with their contents. *)
Lemma onActivate_filter (w : World) :
  caches (onActivate w) = filter (fun nc => is_current (fst nc)) (caches w).
Proof.
  unfold onActivate. simpl. rewrite fold_delete_filter.
  apply filter_ext_in. intros nc Hin.
  destruct (is_current (fst nc)) eqn:Ec.
  - apply forallb_forall. intros n _.
    destruct (String.eqb (fst nc) n) eqn:E; simpl.
    + apply String.eqb_eq in E. subst n. now rewrite Ec.
    + apply orb_true_r.
  - apply not_true_is_false. intros Hall.
    rewrite forallb_forall in Hall.
    specialize (Hall (fst nc) (in_map fst _ _ Hin)).
    now rewrite Ec, String.eqb_refl in Hall.
Qed.

Lemma onActivate_eq (w : World) :
  onActivate w = set_caches (filter (fun nc => is_current (fst nc)) (caches w)) w.
Proof.
  rewrite <- onActivate_filter. reflexivity.
Qed.

Lemma caches_get_current (cs : CacheStorage) (name : string) :
  is_current name = true ->
  caches_get (filter (fun nc => is_current (fst nc)) cs) name = caches_get cs name.
Proof.
  intros Hc. induction cs as [|[n c] cs IH]; simpl; [reflexivity|].
  destruct (is_current n) eqn:En; simpl.
  - now rewrite IH.
  - destruct (String.eqb n name) eqn:E; [|exact IH].
    apply String.eqb_eq in E. congruence.
Qed.

(** C9.  After activation the caches are those of the earlier state that
    are named portfolio-static-v2 or portfolio-dynamic-v2: every other
    cache is gone, the two current ones are kept with their contents, and
    activating again changes nothing. *)
Theorem C9_activate_keeps_current_caches (w : World) :
  (forall name,
      In name (caches_keys (caches (onActivate w)))
      <-> In name (caches_keys (caches w))
          /\ (name = STATIC_CACHE \/ name = DYNAMIC_CACHE))
  /\ caches_get (caches (onActivate w)) STATIC_CACHE = caches_get (caches w) STATIC_CACHE
  /\ caches_get (caches (onActivate w)) DYNAMIC_CACHE = caches_get (caches w) DYNAMIC_CACHE
  /\ onActivate (onActivate w) = onActivate w.
Proof.
  split; [|split; [|split]].
  - intros name. rewrite onActivate_filter. unfold caches_keys.
    rewrite !in_map_iff. split.
    + intros [nc [Hn Hin]]. apply filter_In in Hin as [Hin Hc].
      split; [now exists nc|]. subst name.
      unfold is_current in Hc. apply orb_true_iff in Hc as [Hc|Hc];
        apply String.eqb_eq in Hc; auto.
    + intros [[nc [Hn Hin]] Hc]. exists nc. split; [exact Hn|].
      apply filter_In. split; [exact Hin|]. rewrite Hn.
      destruct Hc as [->| ->]; reflexivity.
  - rewrite onActivate_filter. now apply caches_get_current.
  - rewrite onActivate_filter. now apply caches_get_current.
  - rewrite (onActivate_eq (onActivate w)), (onActivate_eq w).
    unfold set_caches. simpl. f_equal.
    rewrite filter_filter. apply filter_ext.
    intros nc. now destruct (is_current (fst nc)).
Qed.

End LifecycleFacts.

(** ** The worker on concrete requests *)

Module WorkerExamples.
Import SW SWSpec Examples.

(** An icon is a static asset although it ends in [.png]; a data file is
    fetched network-first although [.json] contains [.js]. *)
Example policy_of_icon :
  policy_of "/assets/images/icons/github.png" = CacheFirst.
Proof. reflexivity. Qed.

Example policy_of_data :
  policy_of "/assets/data/projects.json" = NetworkFirst.
Proof. reflexivity. Qed.

Example policy_of_page :
  policy_of "/index.html" = NetworkFirst.
Proof. reflexivity. Qed.

Lemma C1_witness :
  method screenshot = "GET"
  /\ origin (url screenshot) = site
  /\ policy_of (pathname (url screenshot)) = StaleWhileRevalidate
  /\ fst (onFetch site online screenshot warm_world) = Some (Normal (Some stale)).
Proof.
  split; [reflexivity|]. split; [reflexivity|]. split; [reflexivity|].
  destruct (WorkerFacts.C1_dispatch_by_pathname site online screenshot warm_world
              eq_refl eq_refl) as [H _].
  rewrite H. reflexivity.
Defined.

Lemma C2_witness :
  caches_match (caches warm_world) (url screenshot) = Some stale
  /\ fst (staleWhileRevalidate online screenshot warm_world) = Normal (Some stale)
  /\ cache_lookup
       (caches (settle online (snd (staleWhileRevalidate online screenshot warm_world))))
       DYNAMIC_CACHE (url screenshot)
     = Some fresh.
Proof.
  pose proof (WorkerFacts.C2_stale_while_revalidate online screenshot warm_world stale
                eq_refl) as [H1 [_ [_ [_ H5]]]].
  split; [reflexivity|]. split; [exact H1|].
  apply H5; reflexivity.
Defined.

Lemma C4_witness :
  cacheFirst online stylesheet upgraded_world = (Normal (Some stale), upgraded_world)
  /\ fst (cacheFirst online stylesheet empty_world) = Normal (Some fresh)
  /\ cache_lookup
       (caches (settle online (snd (cacheFirst online stylesheet empty_world))))
       STATIC_CACHE (url stylesheet)
     = Some fresh.
Proof.
  split.
  - apply (proj1 (WorkerFacts.C4_cache_first online stylesheet upgraded_world)).
    reflexivity.
  - pose proof (proj2 (WorkerFacts.C4_cache_first online stylesheet empty_world) fresh
                  eq_refl eq_refl) as [H1 [_ H3]].
    split; [exact H1|]. apply H3. reflexivity.
Defined.

(** Activation on caches of two versions: the old ones go. *)
Example activate_upgraded :
  caches_keys (caches (onActivate upgraded_world)) = [STATIC_CACHE; DYNAMIC_CACHE].
Proof. reflexivity. Qed.

End WorkerExamples.

(** ** Image fallbacks *)

Module ImageFacts.
Import JsString ImageOptimizer ImageSpec.

Lemma contains_app (l1 l2 : list string) (c : string) :
  contains (l1 ++ l2)%list c = contains l1 c || contains l2 c.
Proof. unfold contains. apply existsb_app. Qed.

Lemma contains_add_other (img : Img) (c d : string) :
  String.eqb d c = false ->
  contains (classList (classList_add c img)) d = contains (classList img) d.
Proof.
  intros Hne. unfold classList_add. simpl.
  destruct (contains (classList img) c); [reflexivity|].
  rewrite contains_app. simpl. rewrite Hne. now rewrite !orb_false_r.
Qed.

Lemma contains_add_same (img : Img) (c : string) :
  contains (classList (classList_add c img)) c = true.
Proof.
  unfold classList_add. simpl.
  destruct (contains (classList img) c) eqn:E; [exact E|].
  rewrite contains_app. simpl. rewrite String.eqb_refl. apply orb_true_r.
Qed.

Lemma contains_remove_same (img : Img) (c : string) :
  contains (classList (classList_remove c img)) c = false.
Proof.
  unfold classList_remove, contains. simpl.
  induction (classList img) as [|x l IH]; simpl; [reflexivity|].
  destruct (String.eqb c x) eqn:E; simpl; [exact IH|]. now rewrite E.
Qed.

Lemma contains_remove_other (img : Img) (c d : string) :
  String.eqb c d = false ->
  contains (classList (classList_remove c img)) d = contains (classList img) d.
Proof.
  intros Hne. unfold classList_remove, contains. simpl.
  induction (classList img) as [|x l IH]; simpl; [reflexivity|].
  destruct (String.eqb c x) eqn:E; simpl.
  - apply String.eqb_eq in E. subst x.
    rewrite String.eqb_sym in Hne. now rewrite Hne.
  - now rewrite IH.
Qed.

Lemma closest_add_other (img : Img) (c d : string) :
  String.eqb d c = false ->
  closest (classList_add c img) d = closest img d.
Proof.
  intros Hne. unfold closest. now rewrite contains_add_other.
Qed.

Lemma fallback_for_svg (img : Img) :
  In (fallback_for img) fallbackSvgs /\ endsWith (fallback_for img) ".svg" = true.
Proof.
  unfold fallback_for, fallbackSvgs.
  destruct (closest img "technical-diagram"); [simpl; auto|].
  destruct (closest img "research-plot"); [simpl; auto|].
  destruct (closest img "project-screenshot"); [simpl; auto 6|].
  destruct (contains (classList img) "artifact-image"); simpl; auto.
Qed.

Lemma classList_set_alt_title (a t : option string) (img : Img) :
  classList (set_alt_title a t img) = classList img.
Proof. reflexivity. Qed.

(** The error handler on any image. *)
Lemma handleImageError_fallback (img : Img) :
  src (handleImageError img) = fallback_for img
  /\ contains (classList (handleImageError img)) "loading" = false
  /\ contains (classList (handleImageError img)) "fallback" = true.
Proof.
  split; [|split].
  - unfold handleImageError, fallback_for, closest. simpl.
    destruct (contains (classList img) "technical-diagram"); simpl; [reflexivity|].
    destruct (existsb _ (ancestors img)); simpl; [reflexivity|].
    destruct (contains (classList img) "research-plot"); simpl; [reflexivity|].
    destruct (existsb _ (ancestors img)); simpl; [reflexivity|].
    destruct (contains (classList img) "project-screenshot"); simpl; [reflexivity|].
    destruct (existsb _ (ancestors img)); simpl; reflexivity.
  - unfold handleImageError. cbv zeta.
    rewrite classList_set_alt_title. apply contains_remove_same.
  - unfold handleImageError. cbv zeta.
    rewrite classList_set_alt_title.
    rewrite contains_remove_other by reflexivity.
    apply contains_add_same.
Qed.

(** C7.  A lazily loaded image whose source fails to load ends with its
    [src] on a fallback SVG (the generic one, or the one of the category
    found in its classes or ancestors) and without the loading class. *)
Theorem C7_failed_image_falls_back (loads : string -> bool) (img : Img) (a : ascii) (s : string) :
  js_or (dataset_src img) (dataset_lazy img) = Some (String a s) ->
  loads (String a s) = false ->
  src (loadImage loads img) = fallback_for img
  /\ In (src (loadImage loads img)) fallbackSvgs
  /\ endsWith (src (loadImage loads img)) ".svg" = true
  /\ contains (classList (loadImage loads img)) "loading" = false
  /\ contains (classList (loadImage loads img)) "fallback" = true.
Proof.
  intros Hsrc Hfail. unfold loadImage. rewrite Hsrc, Hfail.
  destruct (handleImageError_fallback (classList_add "loading" img)) as [H1 [H2 H3]].
  assert (Hf : fallback_for (classList_add "loading" img) = fallback_for img).
  { unfold fallback_for.
    rewrite !closest_add_other by reflexivity.
    now rewrite contains_add_other by reflexivity. }
  rewrite Hf in H1. rewrite H1.
  destruct (fallback_for_svg img) as [Hin Hsvg].
  repeat split; assumption.
Qed.

Lemma C7_witness :
  js_or (dataset_src Examples.card_image) (dataset_lazy Examples.card_image)
  = Some "assets/images/projects/app/dashboard.png"
  /\ src (loadImage Examples.unreachable Examples.card_image)
     = "assets/images/fallbacks/project-screenshot-fallback.svg"
  /\ classList (loadImage Examples.unreachable Examples.card_image)
     = ["lazy-image"; "project-card-img"; "project-screenshot"; "fallback"].
Proof.
  split; [reflexivity|].
  pose proof (C7_failed_image_falls_back Examples.unreachable Examples.card_image
                "a"%char "ssets/images/projects/app/dashboard.png" eq_refl eq_refl)
    as [H _].
  split; [rewrite H; reflexivity | reflexivity].
Defined.

End ImageFacts.

(** ** The project grid *)

Module ProjectsFacts.
Import JsString Control Projects ProjectsSpec.

Lemma loadFile_serves (env : Env) (path : string) (l : list Project) :
  serves env path l -> loadFile (fetch env path) = l.
Proof.
  intros [r [Hf [Hok Hj]]]. unfold loadFile. now rewrite Hf, Hok, Hj.
Qed.

Lemma loadFile_fails (env : Env) (path : string) :
  fails env path -> loadFile (fetch env path) = [].
Proof.
  unfold fails, loadFile. destruct (fetch env path) as [r|]; [|reflexivity].
  intros [H|H]; rewrite H; [reflexivity|]. now destruct (Fetch.ok r).
Qed.

Lemma loaded_length (ai ml research : list Project) :
  List.length (map createProjectCard (loaded ai ml research))
  = (List.length ai + List.length ml + List.length research)%nat.
Proof.
  unfold loaded. rewrite length_map, !length_app, !length_map. lia.
Qed.

(** Rendering a non-empty selection writes one card per project. *)
Lemma renderProjects_cards (env : Env) (s : State) (html : string) :
  projectsGrid s = Some html ->
  filteredProjects s <> [] ->
  imageOptimizer env <> Some false ->
  renderProjects env s = (Returned, set_innerHTML (cards (filteredProjects s)) s).
Proof.
  intros Hg Hne Hopt. unfold renderProjects. rewrite Hg.
  destruct (filteredProjects s) as [|p l] eqn:E; [congruence|].
  destruct (imageOptimizer env) as [[|]|]; try reflexivity. congruence.
Qed.

(** With the three data files fetched and parsed, at least one entry
    among them, the grid element present and the lazy-image registration
    completing (no image optimizer, or one with [addLazyImages]), [init]
    leaves the filter on 'all' and the grid holding exactly one card per
    loaded entry: the AI product projects, then the ML engineering
    projects, then the research projects. *)
Lemma init_one_card_per_loaded_project
    (env : Env) (grid : string) (ai ml research : list Project) :
  serves env ai_path ai ->
  serves env ml_path ml ->
  serves env research_path research ->
  loaded ai ml research <> [] ->
  imageOptimizer env <> Some false ->
  init env (new_manager (Some grid))
  = (Returned,
     mkState (loaded ai ml research) (loaded ai ml research) "all"
             (Some (cards (loaded ai ml research))) (filterHeader env))
  /\ List.length (map createProjectCard (loaded ai ml research))
     = (List.length ai + List.length ml + List.length research)%nat.
Proof.
  intros Hai Hml Hre Hne Hopt. split; [|apply loaded_length].
  unfold init, try_catch, seq, showLoadingState, hideLoadingState, bindEvents, skip.
  unfold loadProjects.
  apply loadFile_serves in Hai, Hml, Hre.
  unfold ai_path in Hai. unfold ml_path in Hml. unfold research_path in Hre.
  rewrite Hai, Hml, Hre.
  fold (loaded ai ml research).
  destruct (loaded ai ml research) as [|p l] eqn:E; [congruence|].
  unfold createCategoryFilters. simpl.
  destruct (filterHeader env);
    (erewrite renderProjects_cards;
     [reflexivity | simpl; reflexivity | simpl; congruence | exact Hopt]).
Qed.

Example init_one_card_per_loaded_project_example :
  ProjectsSpec.loaded [Examples.autodescribe] [Examples.pharmgpt] []
  = [withCategory "ai-product" Examples.autodescribe;
     withCategory "ml-engineering" Examples.pharmgpt]
  /\ projectsGrid (snd (init Examples.projects_page (new_manager (Some EmptyString))))
     = Some (createProjectCard (withCategory "ai-product" Examples.autodescribe)
             ++ createProjectCard (withCategory "ml-engineering" Examples.pharmgpt)).
Proof. split; reflexivity. Qed.

(** Valid files without entries: nothing was loaded, [loadProjects]
    throws by its guard and the grid shows the two hard-coded fallback
    projects. *)
Lemma init_empty_files_show_fallback :
  serves Examples.empty_files_page ai_path []
  /\ serves Examples.empty_files_page ml_path []
  /\ serves Examples.empty_files_page research_path []
  /\ projectsGrid (snd (init Examples.empty_files_page (new_manager (Some EmptyString))))
     = Some (cards fallbackProjects)
  /\ List.length fallbackProjects = 2%nat
  /\ projectsGrid (snd (init Examples.empty_files_page (new_manager (Some EmptyString))))
     <> Some (cards (loaded [] [] [])).
Proof.
  assert (Hs : forall path, serves Examples.empty_files_page path []).
  { intros path. eexists. split; [reflexivity|]. split; reflexivity. }
  repeat split; try apply Hs.
  vm_compute. discriminate.
Qed.

(** Rendering a non-empty selection with an image optimizer that lacks
    [addLazyImages] throws, after the cards were written. *)
Lemma renderProjects_throws (env : Env) (s : State) (html : string) :
  projectsGrid s = Some html ->
  filteredProjects s <> [] ->
  imageOptimizer env = Some false ->
  renderProjects env s = (Raised, set_innerHTML (cards (filteredProjects s)) s).
Proof.
  intros Hg Hne Hopt. unfold renderProjects. rewrite Hg, Hopt.
  destruct (filteredProjects s) as [|p l] eqn:E; [congruence|reflexivity].
Qed.

Lemma createProjectCard_head (project : Project) :
  exists rest, createProjectCard project = String "<" (String "a" rest).
Proof. unfold createProjectCard. simpl. eauto. Qed.

Lemma errorHTML_is_no_card (message : string) (l : list Project) :
  l <> [] -> errorHTML message <> cards l.
Proof.
  destruct l as [|p l]; [congruence|]. intros _ H.
  destruct (createProjectCard_head p) as [rest Hp].
  unfold cards, join in H. simpl in H. rewrite Hp in H.
  destruct (map createProjectCard l); simpl in H; discriminate H.
Qed.

(** C5.  With the image optimizer of the repository installed, which has
    no [addLazyImages], valid project files with at least one entry do
    not end as cards in the grid: [renderProjects] throws after writing
    them, the rendering of the fallback projects throws as well, and
    [init] leaves the loaded entries replaced by the fallback projects
    and the grid on the 'Unable to Load Projects' message. *)
Theorem C5_lazy_registration_loses_the_cards
    (env : Env) (grid : string) (ai ml research : list Project) :
  serves env ai_path ai ->
  serves env ml_path ml ->
  serves env research_path research ->
  loaded ai ml research <> [] ->
  imageOptimizer env = Some false ->
  init env (new_manager (Some grid))
  = (Returned,
     mkState fallbackProjects fallbackProjects "all"
             (Some (errorHTML "Failed to load projects. Please try again later."))
             (filterHeader env))
  /\ errorHTML "Failed to load projects. Please try again later."
     <> cards (loaded ai ml research).
Proof.
  intros Hai Hml Hre Hne Hopt. split; [|now apply errorHTML_is_no_card].
  unfold init, try_catch, seq, showLoadingState, hideLoadingState, bindEvents, skip.
  unfold loadProjects.
  apply loadFile_serves in Hai, Hml, Hre.
  unfold ai_path in Hai. unfold ml_path in Hml. unfold research_path in Hre.
  rewrite Hai, Hml, Hre.
  fold (loaded ai ml research).
  destruct (loaded ai ml research) as [|p l] eqn:E; [congruence|].
  unfold createCategoryFilters, loadFallbackProjects, showError. simpl.
  destruct (filterHeader env);
    (erewrite renderProjects_throws;
     [ | simpl; reflexivity | simpl; congruence | exact Hopt]);
    simpl; unfold renderProjects; simpl; rewrite Hopt; reflexivity.
Qed.

Lemma C5_witness :
  serves Examples.optimizer_page ai_path [Examples.autodescribe]
  /\ projectsGrid (snd (init Examples.optimizer_page (new_manager (Some EmptyString))))
     = Some (errorHTML "Failed to load projects. Please try again later.")
  /\ projectsGrid (snd (init Examples.optimizer_page (new_manager (Some EmptyString))))
     <> Some (cards (loaded [Examples.autodescribe] [Examples.pharmgpt] [])).
Proof.
  assert (Hs : forall path l, Examples.project_files path = Examples.json_ok l ->
                              serves Examples.optimizer_page path l).
  { intros path l H. eexists. split; [exact H|]. split; reflexivity. }
  destruct (C5_lazy_registration_loses_the_cards Examples.optimizer_page EmptyString
              [Examples.autodescribe] [Examples.pharmgpt] []
              (Hs ai_path [Examples.autodescribe] eq_refl)
              (Hs ml_path [Examples.pharmgpt] eq_refl)
              (Hs research_path [] eq_refl)) as [H Hd].
  - discriminate.
  - reflexivity.
  - split; [apply Hs; reflexivity|]. rewrite H. split; [reflexivity|].
    intros E. apply Hd.
    exact (f_equal (fun o => match o with Some html => html | None => EmptyString end) E).
Defined.

End ProjectsFacts.

(** ** Failed data fetches *)

Module FallbackFacts.
Import JsString Control RendererSpec.

(** [ProjectsManager]: when none of the three files can be used, [init]
    returns and the grid shows the hard-coded fallback projects, or the
    error message when rendering them throws. *)
Lemma projects_init_failure (env : Projects.Env) (grid : string) :
  ProjectsSpec.fails env ProjectsSpec.ai_path ->
  ProjectsSpec.fails env ProjectsSpec.ml_path ->
  ProjectsSpec.fails env ProjectsSpec.research_path ->
  fst (Projects.init env (Projects.new_manager (Some grid))) = Returned
  /\ (Projects.projectsGrid (snd (Projects.init env (Projects.new_manager (Some grid))))
      = Some (ProjectsSpec.cards Projects.fallbackProjects)
      \/ Projects.projectsGrid (snd (Projects.init env (Projects.new_manager (Some grid))))
         = Some (Projects.errorHTML "Failed to load projects. Please try again later.")).
Proof.
  intros Hai Hml Hre.
  apply ProjectsFacts.loadFile_fails in Hai, Hml, Hre.
  unfold ProjectsSpec.ai_path in Hai. unfold ProjectsSpec.ml_path in Hml.
  unfold ProjectsSpec.research_path in Hre.
  unfold Projects.init, try_catch, seq, Projects.showLoadingState, Projects.hideLoadingState,
    Projects.bindEvents, skip, Projects.loadProjects.
  rewrite Hai, Hml, Hre.
  unfold Projects.loadFallbackProjects, Projects.createCategoryFilters,
    Projects.renderProjects, Projects.showError. simpl.
  destruct (Projects.filterHeader env); simpl;
    destruct (Projects.imageOptimizer env) as [[|]|]; simpl; auto.
Qed.

Section Publications.
Variable Date_parse : string -> option Z.
Variable toLocaleDateString : string -> string.

(** [PublicationsManager]: a failed fetch ends on the error state. *)
Lemma publications_init_failure (o : Fetch.Outcome Publications.Publication) (grid : string) :
  failed o ->
  Publications.init Date_parse toLocaleDateString o (Publications.new_manager (Some grid))
  = (Returned, Publications.mkState [] true (Some Publications.errorHTML)).
Proof.
  unfold failed. intros H.
  unfold Publications.init, try_catch, seq, Publications.setupDOM,
    Publications.showLoadingState, Publications.hideLoadingState, skip,
    Publications.loadPublications. simpl.
  destruct o as [r|]; [|reflexivity].
  destruct H as [H|H]; rewrite H; [reflexivity|].
  now destruct (Fetch.ok r).
Qed.

End Publications.

(** [AIEngineeringProjects]: a rejected fetch or an unparsable body ends
    on the 'No projects available' paragraph. *)
Lemma ai_engineering_init_unreadable (o : Fetch.Outcome AIEngineering.Project) (grid : string) :
  unreadable o ->
  AIEngineering.init o (AIEngineering.new_manager (Some grid))
  = (Returned, AIEngineering.mkState [] (Some AIEngineering.noProjectsHTML)).
Proof.
  unfold unreadable. intros H.
  unfold AIEngineering.init, seq, AIEngineering.loadProjects.
  destruct o as [r|]; [rewrite H|]; reflexivity.
Qed.

(** C6, at the failing input: the data file of the AI engineering page
    answers with status 500.  [loadProjects] never looks at the status:
    the body is parsed and its entry is rendered as if the fetch had
    succeeded, with neither placeholder content nor an error message. *)
Theorem C6_ai_engineering_ignores_status :
  failed Examples.server_error_with_data
  /\ AIEngineering.init Examples.server_error_with_data
       (AIEngineering.new_manager (Some EmptyString))
     = (Returned,
        AIEngineering.mkState [Examples.pharmgpt_card]
          (Some (AIEngineering.createProjectCard Examples.pharmgpt_card)))
  /\ AIEngineering.createProjectCard Examples.pharmgpt_card <> AIEngineering.noProjectsHTML.
Proof.
  split; [left; reflexivity|]. split; [reflexivity|].
  vm_compute. discriminate.
Qed.

(** The same response given to [PublicationsManager] ends on its error
    state: that renderer checks [response.ok]. *)
Example publications_server_error :
  Publications.gridElement
    (snd (Publications.init (fun _ => None) (fun d => d)
            (Some (Fetch.mkJsonResponse 500 (Some (Some []))))
            (Publications.new_manager (Some EmptyString))))
  = Some Publications.errorHTML.
Proof. reflexivity. Qed.

End FallbackFacts.

(** ** Sorting *)

Module SortFacts.
Import JsArray.

Section Sort.
Context {A : Type}.
Variable comparefn : A -> A -> option Z.

Lemma insert_perm (x : A) (l : list A) :
  Permutation (x :: l) (insert comparefn x l).
Proof.
  induction l as [|y l IH]; simpl; [reflexivity|].
  destruct (keeps comparefn x y); [reflexivity|].
  rewrite perm_swap. now apply perm_skip.
Qed.

Lemma sort_perm (l : list A) : Permutation l (sort comparefn l).
Proof.
  induction l as [|x l IH]; simpl; [constructor|].
  rewrite <- insert_perm. now apply perm_skip.
Qed.

Lemma sort_length (l : list A) : List.length (sort comparefn l) = List.length l.
Proof. symmetry. apply Permutation_length, sort_perm. Qed.

(** On a set of elements where the comparator is consistent with a
    transitive order, the result is sorted by that order. *)
Variable dom : A -> Prop.
Variable R : A -> A -> Prop.
Hypothesis keeps_R : forall a b, dom a -> dom b -> keeps comparefn a b = true -> R a b.
Hypothesis swaps_R : forall a b, dom a -> dom b -> keeps comparefn a b = false -> R b a.
Hypothesis R_trans : forall a b c, R a b -> R b c -> R a c.

Lemma insert_sorted (x : A) (l : list A) :
  dom x -> Forall dom l ->
  StronglySorted R l -> StronglySorted R (insert comparefn x l).
Proof.
  intros Hx Hl Hs. induction Hs as [|y l Hs IH Hy]; simpl.
  - repeat constructor.
  - inversion Hl as [|y' l' Hdy Hdl]; subst.
    destruct (keeps comparefn x y) eqn:E.
    + constructor; [now constructor|].
      constructor; [now apply keeps_R|].
      eapply Forall_impl; [|exact Hy].
      intros z Hz. eapply R_trans; [apply keeps_R; eassumption | exact Hz].
    + constructor; [now apply IH|].
      rewrite <- insert_perm. constructor; [now apply swaps_R | exact Hy].
Qed.

Lemma sort_sorted (l : list A) :
  Forall dom l -> StronglySorted R (sort comparefn l).
Proof.
  induction l as [|x l IH]; intros Hl; simpl; [constructor|].
  inversion Hl as [|x' l' Hx Hl']; subst.
  apply insert_sorted; [exact Hx | | now apply IH].
  rewrite <- sort_perm. exact Hl'.
Qed.

End Sort.

End SortFacts.

(** ** The publications grid *)

Module PublicationsFacts.
Import JsString Control Publications PublicationsSpec.

Section Manager.
Variable Date_parse : string -> option Z.
Variable toLocaleDateString : string -> string.

Local Notation "'cmp'" := (comparePublications Date_parse) (only parsing).
Local Notation "'before'" := (precedes Date_parse) (only parsing).

Lemma keeps_precedes (a b : Publication) :
  dated Date_parse a -> dated Date_parse b ->
  JsArray.keeps cmp a b = true -> before a b.
Proof.
  unfold dated, JsArray.keeps, comparePublications, precedes, time.
  intros Ha Hb.
  destruct (featured a), (featured b); simpl;
    destruct (Date_parse (publishedDate a)) as [ta|];
    destruct (Date_parse (publishedDate b)) as [tb|]; try congruence;
    intros H; try discriminate; auto.
  - right. split; [reflexivity|]. apply Z.leb_le in H. lia.
  - right. split; [reflexivity|]. apply Z.leb_le in H. lia.
Qed.

Lemma swaps_precedes (a b : Publication) :
  dated Date_parse a -> dated Date_parse b ->
  JsArray.keeps cmp a b = false -> before b a.
Proof.
  unfold dated, JsArray.keeps, comparePublications, precedes, time.
  intros Ha Hb.
  destruct (featured a), (featured b); simpl;
    destruct (Date_parse (publishedDate a)) as [ta|];
    destruct (Date_parse (publishedDate b)) as [tb|]; try congruence;
    intros H; try discriminate; auto.
  - right. split; [reflexivity|]. apply Z.leb_gt in H. lia.
  - right. split; [reflexivity|]. apply Z.leb_gt in H. lia.
Qed.

Lemma precedes_trans (a b c : Publication) :
  before a b -> before b c -> before a c.
Proof.
  unfold precedes.
  intros [[Ha Hb]|[Hab Tab]] [[Hb' Hc]|[Hbc Tbc]].
  - congruence.
  - left. split; congruence.
  - left. split; congruence.
  - right. split; [congruence | lia].
Qed.

(** In a list sorted by [precedes] the featured publications form a
    prefix. *)
Lemma sorted_featured_first (l : list Publication) :
  StronglySorted before l ->
  exists l1 l2, l = (l1 ++ l2)%list
                /\ Forall (fun p => featured p = true) l1
                /\ Forall (fun p => featured p = false) l2.
Proof.
  induction 1 as [|x l Hs IH Hx].
  - exists [], []. repeat split; constructor.
  - destruct (featured x) eqn:Fx.
    + destruct IH as [l1 [l2 [-> [H1 H2]]]].
      exists (x :: l1), l2. repeat split; [now constructor | exact H2].
    + exists [], (x :: l). repeat split; [constructor|].
      constructor; [exact Fx|].
      eapply Forall_impl; [|exact Hx].
      intros y [[Hf _]|[Hf _]]; congruence.
Qed.

(** C10.  For a non-empty list of publications with valid dates, the
    grid holds one card per entry, in an order that puts every featured
    publication before every non-featured one and, within the same
    featured status, the newer before the older. *)
Theorem C10_publications_order
    (response : Fetch.JsonResponse Publication) (pubs : list Publication) (grid : string) :
  Fetch.ok response = true ->
  Fetch.json response = Some (Some pubs) ->
  pubs <> [] ->
  Forall (dated Date_parse) pubs ->
  exists sorted,
    init Date_parse toLocaleDateString (Some response) (new_manager (Some grid))
    = (Returned,
       mkState sorted true
         (Some (join (map (createPublicationCard toLocaleDateString) sorted))))
    /\ Permutation pubs sorted
    /\ List.length (map (createPublicationCard toLocaleDateString) sorted) = List.length pubs
    /\ StronglySorted before sorted
    /\ (exists l1 l2, sorted = (l1 ++ l2)%list
                      /\ Forall (fun p => featured p = true) l1
                      /\ Forall (fun p => featured p = false) l2).
Proof.
  intros Hok Hj Hne Hd.
  exists (JsArray.sort cmp pubs).
  assert (Hs : StronglySorted before (JsArray.sort cmp pubs)).
  { apply (SortFacts.sort_sorted cmp (dated Date_parse) before);
      [exact keeps_precedes | exact swaps_precedes | exact precedes_trans | exact Hd]. }
  split; [|split; [|split; [|split]]].
  - unfold init, try_catch, seq, setupDOM, showLoadingState, hideLoadingState, skip,
      loadPublications, guarded_set. simpl. rewrite Hok, Hj. simpl.
    unfold renderPublications. simpl.
    destruct pubs as [|p l]; [congruence|]. reflexivity.
  - apply SortFacts.sort_perm.
  - rewrite length_map. apply SortFacts.sort_length.
  - exact Hs.
  - apply sorted_featured_first, Hs.
Qed.

End Manager.

Lemma C10_witness :
  Forall (dated Examples.parse_date)
         [Examples.post_2023; Examples.paper_2022; Examples.post_2024]
  /\ publications
       (snd (init Examples.parse_date Examples.show_date
               (Examples.json_ok [Examples.post_2023; Examples.paper_2022; Examples.post_2024])
               (new_manager (Some EmptyString))))
     = [Examples.paper_2022; Examples.post_2024; Examples.post_2023]
  /\ exists sorted,
       StronglySorted (precedes Examples.parse_date) sorted
       /\ Permutation [Examples.post_2023; Examples.paper_2022; Examples.post_2024] sorted.
Proof.
  assert (Hd : Forall (dated Examples.parse_date)
                 [Examples.post_2023; Examples.paper_2022; Examples.post_2024]).
  { repeat constructor; discriminate. }
  split; [exact Hd|]. split; [reflexivity|].
  destruct (C10_publications_order Examples.parse_date Examples.show_date
              (Fetch.mkJsonResponse 200
                 (Some (Some [Examples.post_2023; Examples.paper_2022; Examples.post_2024])))
              [Examples.post_2023; Examples.paper_2022; Examples.post_2024] EmptyString
              eq_refl eq_refl) as [sorted [_ [Hp [_ [Hs _]]]]].
  - discriminate.
  - exact Hd.
  - exists sorted. split; assumption.
Defined.

(** C10 as stated fails on a list with an undated entry: between two
    dated posts it makes the comparator answer NaN for both neighbours,
    and the older post stays ahead of the newer one. *)
Lemma C10_counterexample :
  publications
    (snd (init Examples.parse_date Examples.show_date
            (Examples.json_ok [Examples.post_2023; Examples.post_undated; Examples.post_2024])
            (new_manager (Some EmptyString))))
  = [Examples.post_2023; Examples.post_undated; Examples.post_2024]
  /\ featured Examples.post_2023 = featured Examples.post_2024
  /\ Examples.parse_date (publishedDate Examples.post_2023) = Some 1677628800000%Z
  /\ Examples.parse_date (publishedDate Examples.post_2024) = Some 1718409600000%Z
  /\ ~ precedes Examples.parse_date Examples.post_2023 Examples.post_2024.
Proof.
  repeat split.
  intros [[H _]|[_ H]]; [discriminate|].
  vm_compute in H. now apply H.
Qed.

End PublicationsFacts.

(** * Further properties *)

(** ** The worker: what reaches the caches *)

Module StoreFacts.
Import SW SWSpec SWStoreSpec CacheFacts QueueFacts.

Lemma cache_match_put_other (c : Cache) (u v : URL) (r : Response) :
  u <> v -> cache_match (cache_put c u r) v = cache_match c v.
Proof.
  intros Hne. induction c as [|[k r0] c IH]; simpl.
  - destruct (URL_eqb u v) eqn:E; [|reflexivity].
    apply URL_eqb_eq in E. contradiction.
  - destruct (URL_eqb k u) eqn:Eku; simpl.
    + apply URL_eqb_eq in Eku. subst k.
      destruct (URL_eqb u v) eqn:E; [|reflexivity].
      apply URL_eqb_eq in E. contradiction.
    + now rewrite IH.
Qed.

Lemma cache_lookup_put_other_url (cs : CacheStorage) (name other : string) (u v : URL)
    (r : Response) :
  u <> v ->
  cache_lookup (caches_put cs name u r) other v = cache_lookup cs other v.
Proof.
  intros Hne. unfold cache_lookup.
  induction cs as [|[n c] cs IH]; simpl; [reflexivity|].
  destruct (String.eqb n name) eqn:En; simpl.
  - destruct (String.eqb n other); [|reflexivity].
    now apply cache_match_put_other.
  - destruct (String.eqb n other); [reflexivity|exact IH].
Qed.

Lemma cache_lookup_open (cs : CacheStorage) (name other : string) (u : URL) :
  cache_lookup (caches_open cs name) other u = cache_lookup cs other u.
Proof.
  unfold cache_lookup, caches_open.
  destruct (caches_get cs name) eqn:E; [reflexivity|].
  induction cs as [|[n c] cs IH]; simpl in *.
  - destruct (String.eqb name other); reflexivity.
  - destruct (String.eqb n name) eqn:En; [discriminate|].
    destruct (String.eqb n other); [reflexivity|]. now apply IH.
Qed.

Lemma caches_match_None_open (cs : CacheStorage) (name : string) (u : URL) :
  caches_match cs u = None -> caches_match (caches_open cs name) u = None.
Proof.
  intros H. unfold caches_open. destruct (caches_get cs name); [exact H|].
  induction cs as [|[n c] cs IH]; simpl in *; [reflexivity|].
  destruct (cache_match c u); [discriminate|]. now apply IH.
Qed.

(** A put for a URL that no cache holds makes it the match of that URL. *)
Lemma caches_match_put_fresh (cs : CacheStorage) (name : string) (u : URL) (r : Response) :
  caches_match cs u = None ->
  caches_match (caches_put (caches_open cs name) name u r) u = Some r.
Proof.
  intros H.
  destruct (caches_get_open_same cs name) as [c0 Hget].
  apply (caches_match_None_open cs name) in H.
  revert Hget H. generalize (caches_open cs name) as cs'.
  induction cs' as [|[n c] cs' IH]; simpl; [discriminate|].
  destruct (String.eqb n name) eqn:En; simpl.
  - intros _ _. now rewrite cache_match_put_same.
  - intros Hget Hm. destruct (cache_match c u); [discriminate|]. now apply IH.
Qed.

Lemma cache_lookup_caches_match (cs : CacheStorage) (name : string) (u : URL) (r : Response) :
  cache_lookup cs name u = Some r -> exists r', caches_match cs u = Some r'.
Proof.
  unfold cache_lookup. induction cs as [|[n c] cs IH]; simpl; [discriminate|].
  destruct (String.eqb n name).
  - intros ->. eauto.
  - intros H. destruct (cache_match c u); eauto.
Qed.

Section Network.
Variable network : Request -> option Response.

Local Notation "'run'" := (fun acc t => run_task network t acc) (only parsing).

Lemma same_store_refl (w : World) : same_store w w.
Proof. split; reflexivity. Qed.

Lemma same_store_log (e : Event) (w : World) : same_store (log e w) w.
Proof. split; reflexivity. Qed.

Lemma same_store_trans (a b c : World) :
  same_store a b -> same_store b c -> same_store a c.
Proof. intros [H1 H2] [H3 H4]. split; congruence. Qed.

Lemma run_task_same_store (t : Task) (w1 w2 : World) :
  same_store w1 w2 -> same_store (run_task network t w1) (run_task network t w2).
Proof.
  intros [Hc Hp]. destruct t as [name req r|req]; simpl.
  - split; simpl; congruence.
  - destruct (network req) as [r|]; [destruct (ok r)|]; split; simpl; congruence.
Qed.

Lemma fold_run_same_store (P : list Task) (w1 w2 : World) :
  same_store w1 w2 -> same_store (fold_left run P w1) (fold_left run P w2).
Proof.
  revert w1 w2. induction P as [|t P IH]; intros w1 w2 H; simpl; [exact H|].
  apply IH, run_task_same_store, H.
Qed.

Lemma drain_same_store (w1 w2 : World) :
  same_store w1 w2 -> same_store (drain network w1) (drain network w2).
Proof.
  intros [Hc Hp]. unfold drain. rewrite Hp.
  apply fold_run_same_store. split; simpl; [exact Hc|reflexivity].
Qed.

Lemma settle_same_store (w1 w2 : World) :
  same_store w1 w2 -> same_store (settle network w1) (settle network w2).
Proof.
  intros H. unfold settle. now apply drain_same_store, drain_same_store.
Qed.

(** A revalidation whose fetch brings no ok response only leaves a
    trace. *)
Lemma revalidate_inert (req : Request) (w : World) :
  (forall r, network req = Some r -> ok r = false) ->
  same_store (run_task network (TRevalidate req) w) w.
Proof.
  intros H. simpl. destruct (network req) as [r|] eqn:E.
  - rewrite (H r eq_refl). apply same_store_log.
  - apply same_store_log.
Qed.

Lemma drain_inert_revalidation (req : Request) (w : World) :
  (forall r, network req = Some r -> ok r = false) ->
  same_store (drain network (enqueue (TRevalidate req) w)) (drain network w).
Proof.
  intros H.
  rewrite (drain_snoc network (enqueue (TRevalidate req) w) (pending w) (TRevalidate req))
    by reflexivity.
  eapply same_store_trans; [apply revalidate_inert, H|].
  unfold drain. apply fold_run_same_store. split; reflexivity.
Qed.

End Network.

End StoreFacts.

Module WorkerExtras.
Import SW SWSpec SWStoreSpec CacheFacts QueueFacts StoreFacts.

Section Worker.
Variable location_origin : string.
Variable network : Request -> option Response.

Lemma handleOffline_world (req : Request) (w : World) :
  snd (handleOffline location_origin req w) = w.
Proof.
  unfold handleOffline.
  destruct (caches_match (caches w) (url req)); [reflexivity|].
  destruct (String.eqb (destination req) "document").
  { now destruct (caches_match (caches w) (local_url location_origin "/index.html")). }
  destruct (String.eqb (destination req) "image"); [|reflexivity].
  now destruct (caches_match (caches w) _).
Qed.

Lemma handleOffline_normal (req : Request) (w : World) :
  exists r, fst (handleOffline location_origin req w) = Normal (Some r).
Proof.
  unfold handleOffline.
  destruct (caches_match (caches w) (url req)); [simpl; eauto|].
  destruct (String.eqb (destination req) "document").
  { destruct (caches_match (caches w) (local_url location_origin "/index.html"));
      simpl; eauto. }
  destruct (String.eqb (destination req) "image"); [|simpl; eauto].
  destruct (caches_match (caches w) _); simpl; eauto.
Qed.

(** The promise given to [respondWith] never rejects: whatever a strategy
    throws is turned into a response by [handleOffline]. *)
Theorem handleRequest_always_resolves (req : Request) (w : World) :
  exists v, fst (handleRequest location_origin network req w) = Normal v.
Proof.
  rewrite WorkerFacts.handleRequest_run_policy.
  destruct (run_policy network (policy_of (pathname (url req))) req w) as [[v|] w'];
    simpl; [eauto|].
  destruct (handleOffline_normal req w') as [r Hr]. eauto.
Qed.

(** What a request leaves behind, up to the trace: nothing, or a
    revalidation that is still pending. *)
Lemma handleRequest_store_non_ok (req : Request) (w : World) :
  (forall r, network req = Some r -> ok r = false) ->
  same_store (snd (handleRequest location_origin network req w)) w
  \/ same_store (snd (handleRequest location_origin network req w))
       (enqueue (TRevalidate req) w).
Proof.
  intros H. rewrite WorkerFacts.handleRequest_run_policy.
  destruct (policy_of (pathname (url req))); simpl.
  - left. unfold cacheFirst.
    destruct (caches_match (caches w) (url req)); simpl; [apply same_store_refl|].
    destruct (network req) as [r|] eqn:E; simpl.
    + rewrite (H r eq_refl). split; reflexivity.
    + rewrite handleOffline_world. split; reflexivity.
  - unfold staleWhileRevalidate.
    destruct (caches_match (caches w) (url req)); simpl.
    + right. split; reflexivity.
    + left. destruct (network req) as [r|] eqn:E; simpl.
      * rewrite (H r eq_refl). split; reflexivity.
      * split; reflexivity.
  - left. unfold networkFirst.
    destruct (network req) as [r|] eqn:E; simpl.
    + rewrite (H r eq_refl). split; reflexivity.
    + destruct (caches_match (caches w) (url req)); simpl.
      * split; reflexivity.
      * rewrite handleOffline_world. split; reflexivity.
Qed.

(** A response that is not ok is handed to the page but never written to
    a cache, whichever strategy handled the request: once the pending
    reactions have run, the caches are those the world would have had
    without the request. *)
Theorem non_ok_response_never_cached (req : Request) (w : World) :
  (forall r, network req = Some r -> ok r = false) ->
  caches (settle network (snd (handleRequest location_origin network req w)))
  = caches (settle network w).
Proof.
  intros H.
  destruct (handleRequest_store_non_ok req w H) as [Hs|Hs].
  - apply (settle_same_store network _ _ Hs).
  - apply (settle_same_store network) in Hs. destruct Hs as [Hc _]. rewrite Hc.
    unfold settle.
    apply (drain_same_store network), (drain_inert_revalidation network req w H).
Qed.

Lemma caches_open_idem (cs : CacheStorage) (name : string) :
  caches_open (caches_open cs name) name = caches_open cs name.
Proof.
  destruct (caches_get_open_same cs name) as [c Hc].
  unfold caches_open at 1. now rewrite Hc.
Qed.

Lemma caches_put_open_idem (cs : CacheStorage) (name : string) (u : URL) (r : Response) :
  caches_put (caches_open (caches_open cs name) name) name u r
  = caches_put (caches_open cs name) name u r.
Proof. now rewrite caches_open_idem. Qed.

(** Settling a quiescent world that holds one put. *)
Lemma settle_single_put (cs : CacheStorage) (tr : list Event) (name : string)
    (req : Request) (r : Response) :
  caches (settle network (mkWorld cs [TPut name req r] tr))
  = caches_put (caches_open cs name) name (url req) r.
Proof. reflexivity. Qed.

(** Settling a world with nothing pending changes nothing. *)
Lemma settle_quiet (cs : CacheStorage) (tr : list Event) :
  settle network (mkWorld cs [] tr) = mkWorld cs [] tr.
Proof. reflexivity. Qed.

(** What one successful fetch leaves for the time the network is down.
    For a URL no cache held and a quiet worker, the response of an ok
    fetch is returned.  Under cache-first and network-first the same
    request then gets that response from a network that rejects.  Under
    stale-while-revalidate a response with a body is not stored (only
    the dynamic cache is opened) and the same request then resolves with
    null; a response without a body is stored and served. *)
Theorem fetched_once_then_offline
    (network' : Request -> option Response) (req : Request) (w : World) (r : Response) :
  pending w = [] ->
  caches_match (caches w) (url req) = None ->
  network req = Some r ->
  ok r = true ->
  network' req = None ->
  fst (handleRequest location_origin network req w) = Normal (Some r)
  /\ (policy_of (pathname (url req)) <> StaleWhileRevalidate ->
      fst (handleRequest location_origin network' req
             (settle network (snd (handleRequest location_origin network req w))))
      = Normal (Some r))
  /\ (policy_of (pathname (url req)) = StaleWhileRevalidate ->
      null_body r = false ->
      caches (settle network (snd (handleRequest location_origin network req w)))
      = caches_open (caches w) DYNAMIC_CACHE
      /\ fst (handleRequest location_origin network' req
                (settle network (snd (handleRequest location_origin network req w))))
         = Normal None)
  /\ (policy_of (pathname (url req)) = StaleWhileRevalidate ->
      null_body r = true ->
      fst (handleRequest location_origin network' req
             (settle network (snd (handleRequest location_origin network req w))))
      = Normal (Some r)).
Proof.
  intros Hp Hc Hn Hok Hoff.
  destruct w as [cs p tr]. simpl in Hp, Hc. subst p.
  rewrite !WorkerFacts.handleRequest_run_policy.
  destruct (policy_of (pathname (url req))); simpl.
  - assert (E : cacheFirst network req (mkWorld cs [] tr)
                = (Normal (Some r),
                   mkWorld (caches_open cs STATIC_CACHE) [TPut STATIC_CACHE req r]
                     ((tr ++ [EvFetch req]) ++ [EvSettled req (Some r)])%list)).
    { unfold cacheFirst. simpl. now rewrite Hc, Hn, Hok. }
    rewrite E. cbn [fst snd orOffline].
    split; [reflexivity|]. split; [intros _|split; discriminate].
    unfold cacheFirst. rewrite settle_single_put.
    rewrite caches_put_open_idem.
    now rewrite (caches_match_put_fresh cs STATIC_CACHE (url req) r Hc).
  - split; [unfold staleWhileRevalidate; simpl; now rewrite Hc, Hn|].
    split; [congruence|]. split; intros _ Hb.
    + assert (E : staleWhileRevalidate network req (mkWorld cs [] tr)
                  = (Normal (Some r),
                     mkWorld (caches_open cs DYNAMIC_CACHE) []
                       ((tr ++ [EvFetch req]) ++ [EvSettled req (Some r)])%list)).
      { unfold staleWhileRevalidate. simpl. now rewrite Hc, Hn, Hok, Hb. }
      rewrite E. cbn [fst snd orOffline]. rewrite settle_quiet.
      split; [reflexivity|].
      unfold staleWhileRevalidate. cbn [caches].
      now rewrite (caches_match_None_open cs DYNAMIC_CACHE (url req) Hc), Hoff.
    + assert (E : staleWhileRevalidate network req (mkWorld cs [] tr)
                  = (Normal (Some r),
                     mkWorld cs [TPut DYNAMIC_CACHE req r]
                       ((tr ++ [EvFetch req]) ++ [EvSettled req (Some r)])%list)).
      { unfold staleWhileRevalidate. simpl. now rewrite Hc, Hn, Hok, Hb. }
      rewrite E. cbn [fst snd orOffline].
      unfold staleWhileRevalidate. rewrite settle_single_put.
      now rewrite (caches_match_put_fresh cs DYNAMIC_CACHE (url req) r Hc).
  - assert (E : networkFirst network req (mkWorld cs [] tr)
                = (Normal (Some r),
                   mkWorld (caches_open cs DYNAMIC_CACHE) [TPut DYNAMIC_CACHE req r]
                     ((tr ++ [EvFetch req]) ++ [EvSettled req (Some r)])%list)).
    { unfold networkFirst. simpl. now rewrite Hn, Hok. }
    rewrite E. cbn [fst snd orOffline].
    split; [reflexivity|]. split; [intros _|split; discriminate].
    unfold networkFirst. rewrite Hoff. cbn [caches log]. rewrite settle_single_put.
    rewrite caches_put_open_idem.
    now rewrite (caches_match_put_fresh cs DYNAMIC_CACHE (url req) r Hc).
Qed.

(** Network-first returns the network response whatever the caches hold,
    and an ok response replaces the request's entry in the dynamic
    cache. *)
Theorem networkFirst_prefers_network (req : Request) (w : World) (r : Response) :
  pending w = [] ->
  network req = Some r ->
  fst (networkFirst network req w) = Normal (Some r)
  /\ (ok r = true ->
      cache_lookup (caches (settle network (snd (networkFirst network req w))))
        DYNAMIC_CACHE (url req) = Some r)
  /\ (ok r = false ->
      caches (settle network (snd (networkFirst network req w))) = caches w).
Proof.
  intros Hp Hn. destruct w as [cs p tr]. simpl in Hp. subst p.
  split; [unfold networkFirst; now rewrite Hn|]. split; intros Hok.
  - assert (E : networkFirst network req (mkWorld cs [] tr)
                = (Normal (Some r),
                   mkWorld (caches_open cs DYNAMIC_CACHE) [TPut DYNAMIC_CACHE req r]
                     ((tr ++ [EvFetch req]) ++ [EvSettled req (Some r)])%list)).
    { unfold networkFirst. simpl. now rewrite Hn, Hok. }
    rewrite E. cbn [snd]. rewrite settle_single_put, caches_put_open_idem.
    apply lookup_open_put.
  - unfold networkFirst. rewrite Hn, Hok. reflexivity.
Qed.

(** A copy held by the static cache, the first cache of the storage,
    shadows every revalidation: stale-while-revalidate writes the fresh
    response to the dynamic cache, and [caches.match] keeps answering
    with the static copy. *)
Theorem static_copy_shadows_revalidation
    (req : Request) (c : Cache) (rest : CacheStorage) (tr : list Event) (s : Response) :
  cache_match c (url req) = Some s ->
  fst (staleWhileRevalidate network req (mkWorld ((STATIC_CACHE, c) :: rest) [] tr))
  = Normal (Some s)
  /\ caches_match
       (caches (settle network
                  (snd (staleWhileRevalidate network req
                          (mkWorld ((STATIC_CACHE, c) :: rest) [] tr)))))
       (url req)
     = Some s.
Proof.
  intros Hs. unfold staleWhileRevalidate. simpl. rewrite Hs. simpl.
  split; [reflexivity|].
  unfold settle, drain. simpl.
  destruct (network req) as [r|]; [destruct (ok r)|]; simpl; try now rewrite Hs.
  unfold caches_open. simpl.
  destruct (caches_get rest DYNAMIC_CACHE); simpl; now rewrite Hs.
Qed.

(** A request costs at most one fetch, and only of the request itself. *)
Theorem at_most_one_fetch (req : Request) (w : World) :
  exists evs,
    trace (snd (handleRequest location_origin network req w)) = (trace w ++ evs)%list
    /\ (fetch_count evs <= 1)%nat
    /\ forall q, In (EvFetch q) evs -> q = req.
Proof.
  rewrite WorkerFacts.handleRequest_run_policy.
  destruct (policy_of (pathname (url req))); simpl.
  - unfold cacheFirst.
    destruct (caches_match (caches w) (url req)); simpl.
    + exists []. rewrite app_nil_r. repeat split; [unfold fetch_count; simpl; lia | intros q []].
    + destruct (network req) as [r|]; simpl.
      * exists [EvFetch req; EvSettled req (Some r)].
        split; [destruct (ok r); simpl; now rewrite <- app_assoc|].
        split; [unfold fetch_count; simpl; lia|]. intros q [H|[H|[]]]; congruence.
      * rewrite handleOffline_world. simpl.
        exists [EvFetch req; EvSettled req None].
        split; [now rewrite <- app_assoc|].
        split; [unfold fetch_count; simpl; lia|]. intros q [H|[H|[]]]; congruence.
  - unfold staleWhileRevalidate.
    destruct (caches_match (caches w) (url req)); simpl.
    + exists [EvFetch req]. split; [reflexivity|].
      split; [unfold fetch_count; simpl; lia|]. intros q [H|[]]; congruence.
    + exists [EvFetch req; EvSettled req (network req)].
      split; [destruct (network req) as [r|]; [destruct (ok r), (null_body r)|]; simpl;
              now rewrite <- app_assoc|].
      split; [unfold fetch_count; simpl; lia|]. intros q [H|[H|[]]]; congruence.
  - unfold networkFirst.
    destruct (network req) as [r|]; simpl.
    + exists [EvFetch req; EvSettled req (Some r)].
      split; [destruct (ok r); simpl; now rewrite <- app_assoc|].
      split; [unfold fetch_count; simpl; lia|]. intros q [H|[H|[]]]; congruence.
    + exists [EvFetch req; EvSettled req None].
      split.
      { destruct (caches_match (caches w) (url req)); simpl;
          [|rewrite handleOffline_world; simpl]; now rewrite <- app_assoc. }
      split; [unfold fetch_count; simpl; lia|]. intros q [H|[H|[]]]; congruence.
Qed.

End Worker.

End WorkerExtras.

(** ** The install event *)

Module InstallFacts.
Import SW SWSpec SWStoreSpec SWInstall CacheFacts StoreFacts.

Section Install.
Variable location_origin : string.
Variable network : Request -> option Response.

Local Notation "'asset'" := (asset_request location_origin) (only parsing).

Lemma fold_log_caches (f : string -> Event) (paths : list string) (w : World) :
  caches (fold_left (fun acc path => log (f path) acc) paths w) = caches w.
Proof.
  revert w. induction paths as [|p paths IH]; intros w; simpl; [reflexivity|].
  now rewrite IH.
Qed.

Lemma fetch_all_entries (paths : list string) (entries : list (Request * Response)) :
  fetch_all location_origin network paths = Some entries ->
  forall e, In e entries ->
            exists path, In path paths /\ fst e = asset path
                         /\ network (asset path) = Some (snd e) /\ ok (snd e) = true.
Proof.
  revert entries. induction paths as [|p paths IH]; intros entries; simpl.
  - intros [= <-] e [].
  - destruct (network (asset p)) as [r|] eqn:En; [|discriminate].
    destruct (ok r) eqn:Eok; [|discriminate].
    destruct (fetch_all location_origin network paths) as [es|]; [|discriminate].
    intros [= <-] e [<-|Hin].
    + exists p. simpl. auto.
    + destruct (IH es eq_refl e Hin) as [q [Hq H]]. exists q. auto.
Qed.

Lemma fetch_all_covers (paths : list string) (entries : list (Request * Response)) :
  fetch_all location_origin network paths = Some entries ->
  forall path, In path paths ->
               exists r, network (asset path) = Some r /\ In (asset path, r) entries.
Proof.
  revert entries. induction paths as [|p paths IH]; intros entries; simpl.
  - intros _ path [].
  - destruct (network (asset p)) as [r|] eqn:En; [|discriminate].
    destruct (ok r) eqn:Eok; [|discriminate].
    destruct (fetch_all location_origin network paths) as [es|]; [|discriminate].
    intros [= <-] path [<-|Hin].
    + exists r. simpl. auto.
    + destruct (IH es eq_refl path Hin) as [r' [H1 H2]]. exists r'. simpl. auto.
Qed.

Lemma fetch_all_succeeds (paths : list string) :
  (forall path, In path paths -> exists r, network (asset path) = Some r /\ ok r = true) ->
  exists entries, fetch_all location_origin network paths = Some entries.
Proof.
  induction paths as [|p paths IH]; intros H; simpl; [eauto|].
  destruct (H p (or_introl eq_refl)) as [r [Hn Hok]]. rewrite Hn, Hok.
  destruct IH as [es Hes]; [intros q Hq; apply H; now right|].
  rewrite Hes. eauto.
Qed.

Lemma fetch_all_rejects (paths : list string) (path : string) :
  In path paths ->
  (forall r, network (asset path) = Some r -> ok r = false) ->
  fetch_all location_origin network paths = None.
Proof.
  intros Hin Hbad. induction paths as [|p paths IH]; simpl; [destruct Hin|].
  destruct Hin as [->|Hin].
  - destruct (network (asset path)) as [r|] eqn:En; [|reflexivity].
    now rewrite (Hbad r eq_refl).
  - destruct (network (asset p)) as [r|]; [|reflexivity].
    destruct (ok r); [|reflexivity]. now rewrite (IH Hin).
Qed.

(** After the puts of [addAll], the cache answers each of the requests
    with the response that was fetched for it. *)
Lemma put_all_lookup (name : string) (entries : list (Request * Response)) (w : World) :
  (forall e e', In e entries -> In e' entries ->
                url (fst e) = url (fst e') -> snd e = snd e') ->
  forall e, In e entries ->
            cache_lookup (caches (put_all network name entries w)) name (url (fst e))
            = Some (snd e).
Proof.
  unfold put_all.
  induction entries as [|x entries IH] using rev_ind; intros Hfun e Hin; [destruct Hin|].
  rewrite fold_left_app. simpl.
  destruct (URL_eqb (url (fst x)) (url (fst e))) eqn:E.
  - apply URL_eqb_eq in E.
    assert (Hx : In x (entries ++ [x])) by (apply in_or_app; right; now left).
    rewrite (Hfun e x Hin Hx (eq_sym E)).
    rewrite <- E. apply lookup_open_put.
  - assert (Hne : url (fst x) <> url (fst e)).
    { intros H. apply URL_eqb_eq in H. congruence. }
    rewrite cache_lookup_put_other_url by exact Hne.
    rewrite cache_lookup_open.
    apply in_app_or in Hin as [Hin|[<-|[]]]; [|contradiction].
    apply IH; [|exact Hin].
    intros a b Ha Hb. apply Hfun; apply in_or_app; now left.
Qed.

Lemma onInstall_success (w : World) :
  (forall path, In path STATIC_ASSETS ->
                exists r, network (asset path) = Some r /\ ok r = true) ->
  snd (onInstall location_origin network w) = true
  /\ forall path, In path STATIC_ASSETS ->
       cache_lookup (caches (fst (onInstall location_origin network w)))
         STATIC_CACHE (local_url location_origin path)
       = network (asset path).
Proof.
  intros Hall. unfold onInstall, cache_addAll.
  destruct (fetch_all_succeeds STATIC_ASSETS Hall) as [entries He].
  rewrite He. cbn [fst snd]. split; [reflexivity|].
  intros path Hin.
  destruct (fetch_all_covers _ _ He path Hin) as [r [Hn Hr]].
  rewrite Hn.
  apply (put_all_lookup STATIC_CACHE entries _) with (e := (asset path, r)); [|exact Hr].
  intros e e' Hi Hi' Hu.
  destruct (fetch_all_entries _ _ He e Hi) as [p [_ [Hf [Hp _]]]].
  destruct (fetch_all_entries _ _ He e' Hi') as [p' [_ [Hf' [Hp' _]]]].
  rewrite Hf, Hf' in Hu. simpl in Hu.
  assert (p = p') by (unfold local_url in Hu; congruence). subst p'.
  congruence.
Qed.

(** When every static asset is fetched with an ok response, the install
    reaches [skipWaiting] and the static cache answers every asset with
    the response fetched for it. *)
Theorem install_precaches_every_asset (w : World) :
  (forall path, In path STATIC_ASSETS ->
                exists r, network (asset path) = Some r /\ ok r = true) ->
  snd (onInstall location_origin network w) = true
  /\ forall path, In path STATIC_ASSETS ->
       cache_lookup (caches (fst (onInstall location_origin network w)))
         STATIC_CACHE (local_url location_origin path)
       = network (asset path).
Proof.
  exact (onInstall_success w).
Qed.

(** One asset that cannot be fetched with an ok response is enough for
    nothing to be precached: the install still completes, without
    [skipWaiting], and every cache answers as before. *)
Theorem install_all_or_nothing (w : World) (path : string) :
  In path STATIC_ASSETS ->
  (forall r, network (asset path) = Some r -> ok r = false) ->
  snd (onInstall location_origin network w) = false
  /\ caches (fst (onInstall location_origin network w)) = caches_open (caches w) STATIC_CACHE
  /\ forall name u,
       cache_lookup (caches (fst (onInstall location_origin network w))) name u
       = cache_lookup (caches w) name u.
Proof.
  intros Hin Hbad. unfold onInstall, cache_addAll.
  rewrite (fetch_all_rejects STATIC_ASSETS path Hin Hbad). cbn [fst snd].
  split; [reflexivity|].
  assert (Hc : caches (fold_left
                         (fun acc p => log (EvFetch (asset p)) acc) STATIC_ASSETS
                         (open_cache STATIC_CACHE w))
               = caches_open (caches w) STATIC_CACHE).
  { now rewrite (fold_log_caches (fun p => EvFetch (asset p))). }
  split; [exact Hc|].
  intros name u. rewrite Hc. apply cache_lookup_open.
Qed.

Lemma cache_match_put (c : Cache) (u v : URL) (r : Response) :
  cache_match (cache_put c u r) v = Some r
  \/ cache_match (cache_put c u r) v = cache_match c v.
Proof.
  induction c as [|[k r0] c IH]; simpl.
  - destruct (URL_eqb u v); auto.
  - destruct (URL_eqb k u); simpl; destruct (URL_eqb k v); auto.
Qed.

Lemma caches_match_put (cs : CacheStorage) (name : string) (u v : URL) (r : Response) :
  caches_match (caches_put cs name u r) v = Some r
  \/ caches_match (caches_put cs name u r) v = caches_match cs v.
Proof.
  induction cs as [|[n c] cs IH]; simpl; [auto|].
  destruct (String.eqb n name); simpl.
  - destruct (cache_match_put c u v r) as [H|H]; rewrite H; auto.
  - destruct (cache_match c v); auto.
Qed.

Lemma caches_match_open (cs : CacheStorage) (name : string) (u : URL) :
  caches_match (caches_open cs name) u = caches_match cs u.
Proof.
  unfold caches_open. destruct (caches_get cs name); [reflexivity|].
  induction cs as [|[n c] cs IH]; simpl; [reflexivity|].
  destruct (cache_match c u); [reflexivity|exact IH].
Qed.

Lemma put_all_only_ok (name : string) (entries : list (Request * Response)) (w : World) :
  (forall e, In e entries -> ok (snd e) = true) ->
  only_ok (caches w) ->
  only_ok (caches (put_all network name entries w)).
Proof.
  unfold put_all. revert w.
  induction entries as [|e entries IH]; intros w Hok Hw; simpl; [exact Hw|].
  apply IH; [intros e' He'; apply Hok; now right|].
  intros u r. cbn [run_task log set_caches caches].
  destruct (caches_match_put (caches_open (caches w) name) name (url (fst e)) u (snd e))
    as [H|H]; rewrite H.
  - intros [= <-]. apply Hok. now left.
  - rewrite caches_match_open. apply Hw.
Qed.

(** A successful install stores ok responses only. *)
Lemma onInstall_only_ok (w : World) :
  only_ok (caches w) -> only_ok (caches (fst (onInstall location_origin network w))).
Proof.
  intros Hw. unfold onInstall, cache_addAll.
  assert (H1 : only_ok (caches (fold_left
                                  (fun acc p => log (EvFetch (asset p)) acc) STATIC_ASSETS
                                  (open_cache STATIC_CACHE w)))).
  { rewrite (fold_log_caches (fun p => EvFetch (asset p))).
    intros u r. cbn [open_cache set_caches caches]. rewrite caches_match_open. apply Hw. }
  destruct (fetch_all location_origin network STATIC_ASSETS) as [entries|] eqn:He;
    cbn [fst]; [|exact H1].
  apply put_all_only_ok; [|exact H1].
  intros e Hin. now destruct (fetch_all_entries _ _ He e Hin) as [p [_ [_ [_ Hok]]]].
Qed.

(** After a successful install on caches that held ok responses only, a
    navigation handled by cache-first or network-first while the network
    is down is answered with an ok response, hence not with the 503
    page: the cached copy of the requested page when there is one, else
    the cached [/index.html]. *)
Theorem offline_navigation_after_install
    (network' : Request -> option Response) (req : Request) (w : World) :
  (forall path, In path STATIC_ASSETS ->
                exists r, network (asset path) = Some r /\ ok r = true) ->
  only_ok (caches w) ->
  network' req = None ->
  destination req = "document" ->
  policy_of (pathname (url req)) <> StaleWhileRevalidate ->
  exists r,
    fst (handleRequest location_origin network' req
           (fst (onInstall location_origin network w)))
    = Normal (Some r)
    /\ ok r = true
    /\ (caches_match (caches (fst (onInstall location_origin network w))) (url req)
        = Some r
        \/ caches_match (caches (fst (onInstall location_origin network w))) (url req)
           = None
           /\ caches_match (caches (fst (onInstall location_origin network w)))
                (local_url location_origin "/index.html")
              = Some r).
Proof.
  intros Hall Hw Hoff Hdoc Hpol.
  destruct (onInstall_success w Hall) as [_ Hlook].
  specialize (Hlook "/index.html").
  destruct (Hall "/index.html") as [r0 [Hn0 _]]; [simpl; auto|].
  rewrite Hn0 in Hlook.
  destruct (cache_lookup_caches_match _ _ _ _ (Hlook ltac:(simpl; auto))) as [r1 Hr1].
  pose proof (onInstall_only_ok w Hw) as Hok.
  set (w1 := fst (onInstall location_origin network w)) in *.
  assert (Hoffl : forall w2, caches w2 = caches w1 ->
            caches_match (caches w1) (url req) = None ->
            fst (handleOffline location_origin req w2) = Normal (Some r1)).
  { intros w2 Hw2 E. unfold handleOffline. rewrite Hw2, Hdoc, E. simpl.
    now rewrite Hr1. }
  rewrite WorkerFacts.handleRequest_run_policy.
  destruct (caches_match (caches w1) (url req)) as [c|] eqn:E.
  - exists c. split; [|split; [exact (Hok _ _ E)|now left]].
    destruct (policy_of (pathname (url req))); [| congruence |]; simpl.
    + unfold cacheFirst. now rewrite E.
    + unfold networkFirst. rewrite Hoff. simpl. now rewrite E.
  - exists r1. split; [|split; [exact (Hok _ _ Hr1)|right; auto]].
    destruct (policy_of (pathname (url req))); [| congruence |]; simpl.
    + unfold cacheFirst. rewrite E, Hoff. simpl. now apply Hoffl.
    + unfold networkFirst. rewrite Hoff. simpl. rewrite E. simpl. now apply Hoffl.
Qed.

End Install.

End InstallFacts.

Module WorkerExtrasExamples.
Import SW SWSpec SWInstall Examples.

Lemma non_ok_response_never_cached_witness :
  fst (handleRequest site missing page warm_world)
  = Normal (Some (mkResponse 404 "Not Found"))
  /\ caches (settle missing (snd (handleRequest site missing page warm_world)))
     = caches warm_world.
Proof.
  split; [reflexivity|].
  rewrite (WorkerExtras.non_ok_response_never_cached site missing page warm_world).
  - reflexivity.
  - intros r [= <-]. reflexivity.
Defined.

Lemma fetched_once_then_offline_witness :
  fst (handleRequest site offline page
         (settle online (snd (handleRequest site online page empty_world))))
  = Normal (Some fresh)
  /\ fst (handleRequest site online screenshot empty_world) = Normal (Some fresh)
  /\ caches (settle online (snd (handleRequest site online screenshot empty_world)))
     = [(DYNAMIC_CACHE, [])]
  /\ fst (handleRequest site offline screenshot
            (settle online (snd (handleRequest site online screenshot empty_world))))
     = Normal None.
Proof.
  destruct (WorkerExtras.fetched_once_then_offline site online offline page empty_world
              fresh eq_refl eq_refl eq_refl eq_refl eq_refl) as [_ [H _]].
  destruct (WorkerExtras.fetched_once_then_offline site online offline screenshot
              empty_world fresh eq_refl eq_refl eq_refl eq_refl eq_refl)
    as [H1 [_ [H2 _]]].
  split; [apply H; discriminate|]. split; [exact H1|].
  apply H2; reflexivity.
Defined.

Lemma networkFirst_prefers_network_witness :
  caches_match (caches warm_world) (url screenshot) = Some stale
  /\ fst (networkFirst online screenshot warm_world) = Normal (Some fresh)
  /\ cache_lookup (caches (settle online (snd (networkFirst online screenshot warm_world))))
       DYNAMIC_CACHE (url screenshot)
     = Some fresh.
Proof.
  split; [reflexivity|].
  destruct (WorkerExtras.networkFirst_prefers_network online screenshot warm_world fresh
              eq_refl eq_refl) as [H1 [H2 _]].
  split; [exact H1 | apply H2; reflexivity].
Defined.

Lemma static_copy_shadows_revalidation_witness :
  caches_match
    (caches (settle online
               (snd (staleWhileRevalidate online screenshot
                       (mkWorld [(STATIC_CACHE, [(url screenshot, stale)])] [] [])))))
    (url screenshot)
  = Some stale
  /\ cache_lookup
       (caches (settle online
                  (snd (staleWhileRevalidate online screenshot
                          (mkWorld [(STATIC_CACHE, [(url screenshot, stale)])] [] [])))))
       DYNAMIC_CACHE (url screenshot)
     = Some fresh.
Proof.
  split; [|reflexivity].
  apply (WorkerExtras.static_copy_shadows_revalidation online screenshot
           [(url screenshot, stale)] [] [] stale).
  reflexivity.
Defined.

Lemma install_precaches_every_asset_witness :
  snd (onInstall site online empty_world) = true
  /\ cache_lookup (caches (fst (onInstall site online empty_world))) STATIC_CACHE
       (local_url site "/resume.pdf")
     = Some fresh.
Proof.
  assert (H : forall path, In path STATIC_ASSETS ->
                exists r, online (asset_request site path) = Some r /\ ok r = true).
  { intros path _. exists fresh. split; reflexivity. }
  destruct (InstallFacts.install_precaches_every_asset site online empty_world H)
    as [H1 H2].
  split; [exact H1|]. apply (H2 "/resume.pdf"). simpl. tauto.
Defined.

Lemma install_all_or_nothing_witness :
  snd (onInstall site without_skills empty_world) = false
  /\ caches (fst (onInstall site without_skills empty_world)) = [(STATIC_CACHE, [])].
Proof.
  destruct (InstallFacts.install_all_or_nothing site without_skills empty_world
              "/assets/data/skills.json") as [H1 [H2 _]].
  - simpl. tauto.
  - intros r [= <-]. reflexivity.
  - split; [exact H1 | exact H2].
Defined.

Lemma offline_navigation_after_install_witness :
  policy_of (pathname (url page)) = NetworkFirst
  /\ fst (handleRequest site offline page (fst (onInstall site server empty_world)))
     = Normal (Some (mkResponse 200 "/index.html")).
Proof.
  split; [reflexivity|].
  destruct (InstallFacts.offline_navigation_after_install site server offline page
              empty_world) as [r [Hr [_ [H|[_ H]]]]].
  - intros path _. eexists. split; reflexivity.
  - intros u r H. discriminate H.
  - reflexivity.
  - reflexivity.
  - discriminate.
  - discriminate H.
  - rewrite Hr. vm_compute in H. now rewrite H.
Defined.

End WorkerExtrasExamples.

(** ** Lazy images: loading once, handling errors again *)

Module ImageExtras.
Import JsString ImageOptimizer ImageSpec ImageFacts.

Lemma img_ext (x y : Img) :
  src x = src y -> classList x = classList y ->
  dataset_src x = dataset_src y -> dataset_lazy x = dataset_lazy y ->
  ancestors x = ancestors y -> alt x = alt y -> title x = title y ->
  x = y.
Proof.
  destruct x, y; simpl; intros; subst; reflexivity.
Qed.

Lemma filter_idem {A} (p : A -> bool) (l : list A) : filter p (filter p l) = filter p l.
Proof.
  induction l as [|a l IH]; simpl; [reflexivity|].
  destruct (p a) eqn:E; simpl; [rewrite E|]; now rewrite IH.
Qed.

Lemma classList_handleImageError (img : Img) :
  classList (handleImageError img)
  = filter (fun x => negb (String.eqb "loading" x))
      (if contains (classList img) "fallback" then classList img
       else (classList img ++ ["fallback"])%list).
Proof. reflexivity. Qed.

Lemma fallback_for_handleImageError (img : Img) :
  fallback_for (handleImageError img) = fallback_for img.
Proof.
  assert (Hc : forall c, String.eqb c "fallback" = false -> String.eqb "loading" c = false ->
                 contains (classList (handleImageError img)) c = contains (classList img) c).
  { intros c H1 H2. unfold handleImageError. cbv zeta.
    rewrite classList_set_alt_title.
    rewrite contains_remove_other by exact H2.
    rewrite contains_add_other by exact H1. reflexivity. }
  unfold fallback_for, closest.
  rewrite !Hc by reflexivity. reflexivity.
Qed.

Lemma js_or_default (a : option string) (c : ascii) (d : string) :
  js_or (js_or a (Some (String c d))) (Some (String c d)) = js_or a (Some (String c d)).
Proof.
  unfold js_or. destruct a as [[|x s]|]; reflexivity.
Qed.

Lemma handleImageError_twice (img : Img) :
  handleImageError (handleImageError img) = handleImageError img.
Proof.
  apply img_ext.
  - rewrite (proj1 (handleImageError_fallback (handleImageError img))).
    rewrite fallback_for_handleImageError.
    symmetry. apply handleImageError_fallback.
  - rewrite (classList_handleImageError (handleImageError img)).
    rewrite (proj2 (proj2 (handleImageError_fallback img))).
    rewrite classList_handleImageError. apply filter_idem.
  - reflexivity.
  - reflexivity.
  - reflexivity.
  - apply js_or_default.
  - reflexivity.
Qed.

(** Handling the error of an image twice changes nothing more; the
    capturing error listener can therefore run again on an image that
    already shows its fallback. *)
Theorem handleImageError_idempotent (img : Img) :
  handleImageError (handleImageError img) = handleImageError img.
Proof.
  exact (handleImageError_twice img).
Qed.

(** The handler keeps a non-empty alternative text and supplies 'Image
    not available' only when the image has none; the lazy source stays
    on the element. *)
Theorem handleImageError_keeps_alt (img : Img) :
  (truthy (alt img) = true -> alt (handleImageError img) = alt img)
  /\ (truthy (alt img) = false -> alt (handleImageError img) = Some "Image not available")
  /\ dataset_src (handleImageError img) = dataset_src img
  /\ dataset_lazy (handleImageError img) = dataset_lazy img
  /\ title (handleImageError img) = Some "Image could not be loaded".
Proof.
  unfold handleImageError, js_or. simpl.
  split; [intros H; now rewrite H|].
  split; [intros H; now rewrite H|].
  repeat split.
Qed.

(** Loading is idempotent.  A loaded image has lost its lazy source and
    is left alone; an image whose source failed is handled with the same
    result when it is tried again. *)
Theorem loadImage_idempotent (loads : string -> bool) (img : Img) :
  loadImage loads (loadImage loads img) = loadImage loads img.
Proof.
  destruct (js_or (dataset_src img) (dataset_lazy img)) as [[|a s]|] eqn:E.
  - assert (H : loadImage loads img = img) by (unfold loadImage; now rewrite E).
    now rewrite !H.
  - destruct (loads (String a s)) eqn:L.
    + assert (H : loadImage loads img
                  = delete_dataset
                      (classList_remove "loading"
                         (classList_add "loaded"
                            (set_src (String a s) (classList_add "loading" img)))))
        by (unfold loadImage; now rewrite E, L).
      rewrite H. reflexivity.
    + set (img1 := classList_add "loading" img).
      assert (H : loadImage loads img = handleImageError img1)
        by (unfold loadImage; now rewrite E, L).
      rewrite H.
      set (y := handleImageError img1).
      assert (E1 : js_or (dataset_src y) (dataset_lazy y) = Some (String a s)) by exact E.
      assert (H2 : loadImage loads y = handleImageError (classList_add "loading" y))
        by (unfold loadImage; now rewrite E1, L).
      rewrite H2.
      assert (Hf : contains (classList y) "fallback" = true)
        by apply (handleImageError_fallback img1).
      assert (Hl : contains (classList y) "loading" = false)
        by apply (handleImageError_fallback img1).
      assert (Hy : handleImageError (classList_add "loading" y) = handleImageError y).
      { clearbody y. apply img_ext; try reflexivity.
        - rewrite (proj1 (handleImageError_fallback (classList_add "loading" y))).
          rewrite (proj1 (handleImageError_fallback y)).
          unfold fallback_for.
          rewrite !closest_add_other by reflexivity.
          now rewrite contains_add_other by reflexivity.
        - rewrite !classList_handleImageError.
          rewrite (contains_add_other y "loading" "fallback") by reflexivity.
          rewrite Hf. unfold classList_add. cbn [classList]. rewrite Hl.
          rewrite filter_app. simpl. now rewrite app_nil_r. }
      rewrite Hy. apply handleImageError_twice.
  - assert (H : loadImage loads img = img) by (unfold loadImage; now rewrite E).
    now rewrite !H.
Qed.

(** A lazy image whose source loads shows that source, is marked loaded
    and not loading, and has no lazy source left. *)
Theorem loadImage_success (loads : string -> bool) (img : Img) (a : ascii) (s : string) :
  js_or (dataset_src img) (dataset_lazy img) = Some (String a s) ->
  loads (String a s) = true ->
  src (loadImage loads img) = String a s
  /\ contains (classList (loadImage loads img)) "loaded" = true
  /\ contains (classList (loadImage loads img)) "loading" = false
  /\ dataset_src (loadImage loads img) = None
  /\ dataset_lazy (loadImage loads img) = None
  /\ alt (loadImage loads img) = alt img.
Proof.
  intros E L. unfold loadImage. rewrite E, L.
  split; [reflexivity|]. split; [|split; [|repeat split]].
  - change (contains (classList (classList_remove "loading"
              (classList_add "loaded" (set_src (String a s) (classList_add "loading" img)))))
              "loaded" = true).
    rewrite contains_remove_other by reflexivity. apply contains_add_same.
  - apply (contains_remove_same
             (classList_add "loaded" (set_src (String a s) (classList_add "loading" img)))).
Qed.

Lemma loadImage_success_witness :
  src (loadImage (fun _ => true) Examples.card_image)
  = "assets/images/projects/app/dashboard.png"
  /\ classList (loadImage (fun _ => true) Examples.card_image)
     = ["lazy-image"; "project-card-img"; "project-screenshot"; "loaded"].
Proof.
  split; [|reflexivity].
  apply (loadImage_success (fun _ => true) Examples.card_image
           "a"%char "ssets/images/projects/app/dashboard.png"); reflexivity.
Defined.

End ImageExtras.

(** ** Project filters *)

Module FilterFacts.
Import JsString Control Projects ProjectsSpec ProjectsView ProjectsViewSpec.

Lemma renderProjects_keeps (env : Env) (s : State) :
  allProjects (snd (renderProjects env s)) = allProjects s
  /\ filteredProjects (snd (renderProjects env s)) = filteredProjects s
  /\ currentCategory (snd (renderProjects env s)) = currentCategory s
  /\ categoryFilters (snd (renderProjects env s)) = categoryFilters s.
Proof.
  unfold renderProjects.
  destruct (projectsGrid s) eqn:Eg; [|simpl; auto].
  destruct (filteredProjects s) eqn:Ef; [simpl; auto|].
  destruct (imageOptimizer env) as [[|]|]; simpl; auto.
Qed.

Lemma filter_tagged (c c' : string) (l : list Project) :
  filter (fun project => String.eqb (category project) c) (map (withCategory c') l)
  = if String.eqb c' c then map (withCategory c') l else [].
Proof.
  induction l as [|p l IH]; simpl.
  - now destruct (String.eqb c' c).
  - rewrite IH. now destruct (String.eqb c' c).
Qed.

(** The three category filters recover the three data files: each
    selects exactly the entries of its file, in order, whatever category
    the entries carried in the JSON; the catalogue itself is untouched. *)
Theorem filters_recover_the_files (env : Env) (s : State) (ai ml research : list Project) :
  allProjects s = loaded ai ml research ->
  filteredProjects (snd (Projects.filterProjects env "ai-product" s))
  = map (withCategory "ai-product") ai
  /\ filteredProjects (snd (Projects.filterProjects env "ml-engineering" s))
     = map (withCategory "ml-engineering") ml
  /\ filteredProjects (snd (Projects.filterProjects env "research" s))
     = map (withCategory "research") research
  /\ filteredProjects (snd (Projects.filterProjects env "all" s)) = loaded ai ml research
  /\ forall category,
       allProjects (snd (Projects.filterProjects env category s)) = loaded ai ml research.
Proof.
  intros Hall. unfold Projects.filterProjects.
  repeat split;
    try (rewrite (proj1 (proj2 (renderProjects_keeps env _))); simpl; rewrite Hall;
         unfold loaded; rewrite ?filter_app, ?filter_tagged; simpl;
         now rewrite ?app_nil_r).
  intros category. rewrite (proj1 (renderProjects_keeps env _)). exact Hall.
Qed.

(** Whatever filter was applied, 'All Projects' brings back one card per
    project of the catalogue. *)
Theorem all_filter_restores_grid (env : Env) (s : State) (html category : string) :
  projectsGrid s = Some html ->
  allProjects s <> [] ->
  imageOptimizer env <> Some false ->
  Projects.filterProjects env "all" (snd (Projects.filterProjects env category s))
  = (Returned,
     mkState (allProjects s) (allProjects s) "all" (Some (cards (allProjects s)))
       (categoryFilters s)).
Proof.
  intros Hg Hne Hopt.
  set (s1 := snd (Projects.filterProjects env category s)).
  assert (H1 : allProjects s1 = allProjects s /\ categoryFilters s1 = categoryFilters s
               /\ exists h, projectsGrid s1 = Some h).
  { subst s1. unfold Projects.filterProjects.
    destruct (renderProjects_keeps env
                (mkState (allProjects s)
                   (if String.eqb category "all" then allProjects s
                    else filter (fun project => String.eqb (Projects.category project) category)
                           (allProjects s))
                   category (projectsGrid s) (categoryFilters s))) as [Ha [_ [_ Hf]]].
    split; [exact Ha|]. split; [exact Hf|].
    unfold renderProjects. simpl. rewrite Hg.
    destruct (if String.eqb category "all" then allProjects s else _);
      [simpl; eauto|].
    destruct (imageOptimizer env) as [[|]|]; simpl; eauto. }
  destruct H1 as [Ha [Hf [h Hh]]].
  unfold Projects.filterProjects. simpl. rewrite Ha, Hf, Hh.
  erewrite ProjectsFacts.renderProjects_cards;
    [reflexivity | reflexivity | exact Hne | exact Hopt].
Qed.





Lemma all_filter_restores_grid_witness :
  projectsGrid
    (snd (Projects.filterProjects Examples.projects_page "all"
            (snd (Projects.filterProjects Examples.projects_page "research"
                    (manager Examples.projects_view)))))
  = projectsGrid (manager Examples.projects_view).
Proof.
  rewrite (all_filter_restores_grid Examples.projects_page (manager Examples.projects_view)
             (cards (loaded [Examples.autodescribe] [Examples.pharmgpt] [])) "research").
  - reflexivity.
  - reflexivity.
  - discriminate.
  - discriminate.
Defined.


Lemma filters_recover_the_files_witness :
  filteredProjects
    (snd (Projects.filterProjects Examples.projects_page "ml-engineering"
            (manager Examples.projects_view)))
  = [withCategory "ml-engineering" Examples.pharmgpt].
Proof.
  apply (filters_recover_the_files Examples.projects_page (manager Examples.projects_view)
           [Examples.autodescribe] [Examples.pharmgpt] []).
  reflexivity.
Defined.

End FilterFacts.

(** ** The modal gallery *)

Module GalleryFacts.
Import Control Projects ProjectsView ProjectsViewSpec.

Lemma length_mapi_from {A B} (k : nat) (f : nat -> A -> B) (l : list A) :
  List.length (mapi_from k f l) = List.length l.
Proof.
  revert k. induction l as [|x l IH]; intros k; simpl; [reflexivity|]. now rewrite IH.
Qed.

Lemma nth_error_mapi_from {A B} (k : nat) (f : nat -> A -> B) (l : list A) (i : nat) :
  nth_error (mapi_from k f l) i = option_map (f (k + i)%nat) (nth_error l i).
Proof.
  revert k i. induction l as [|x l IH]; intros k i; simpl.
  - now destruct i.
  - destruct i as [|i]; simpl.
    + now rewrite Nat.add_0_r.
    + rewrite IH. now rewrite Nat.add_succ_r.
Qed.

Lemma map_mapi_from {A B C} (g : B -> C) (h : A -> C) (k : nat) (f : nat -> A -> B)
    (l : list A) :
  (forall i x, g (f i x) = h x) -> map g (mapi_from k f l) = map h l.
Proof.
  intros H. revert k. induction l as [|x l IH]; intros k; simpl; [reflexivity|].
  now rewrite H, IH.
Qed.

Lemma nth_error_mapi {A B} (f : nat -> A -> B) (l : list A) (i : nat) :
  nth_error (mapi f l) i = option_map (f i) (nth_error l i).
Proof. unfold mapi. now rewrite nth_error_mapi_from. Qed.

(** Displaying an index in range establishes [shows], provided the
    elements stand for the project's images. *)
Lemma update_shows (imgs : list string) (m : Modal) (i : nat) :
  (i < List.length imgs)%nat ->
  map url_of (galleryImages m) = map Some imgs ->
  List.length (indicators m)
  = (if (1 <? List.length imgs)%nat then List.length imgs else 0%nat) ->
  shows imgs (updateGalleryDisplay (set_index i m)).
Proof.
  intros Hi Hurl Hind. unfold shows, updateGalleryDisplay, set_index. simpl.
  split; [exact Hi|]. split; [|split; [|split; [|split]]].
  - rewrite <- Hurl. unfold mapi. apply map_mapi_from.
    intros j g. unfold url_of.
    destruct (Nat.eqb j i); [|reflexivity].
    destruct (g_data_src g); reflexivity.
  - intros j g'. rewrite nth_error_mapi.
    destruct (nth_error (galleryImages m) j) as [g|]; [|discriminate].
    simpl. intros [= <-].
    destruct (Nat.eqb j i); [|reflexivity].
    destruct (g_data_src g); reflexivity.
  - intros g'. rewrite nth_error_mapi.
    destruct (nth_error (galleryImages m) i) as [g|] eqn:Eg; [|discriminate].
    simpl. rewrite Nat.eqb_refl. intros [= <-].
    assert (Hu : Some (url_of g) = option_map Some (nth_error imgs i)).
    { rewrite <- (nth_error_map Some), <- Hurl, nth_error_map. now rewrite Eg. }
    destruct (nth_error imgs i) as [u|]; [|discriminate].
    simpl in Hu. injection Hu as Hu. unfold url_of in Hu.
    destruct (g_data_src g); simpl; congruence.
  - unfold mapi. now rewrite length_mapi_from.
  - intros j ind. rewrite nth_error_mapi.
    destruct (nth_error (indicators m) j); [|discriminate].
    simpl. intros [= <-]. split; reflexivity.
Qed.

Lemma openGallery_shows (project : Project) (imgs : list string) :
  images project = Some imgs -> imgs <> [] ->
  shows imgs (openGallery project).
Proof.
  intros Hi Hne. unfold shows, openGallery, createGallery. rewrite Hi.
  destruct imgs as [|u imgs]; [congruence|].
  set (l := u :: imgs). cbn [fst snd currentImageIndex galleryImages indicators].
  split; [subst l; simpl; lia|]. split; [|split; [|split; [|split]]].
  - unfold mapi. apply map_mapi_from. intros j x. now destruct (Nat.eqb j 0).
  - intros j g. rewrite nth_error_mapi.
    destruct (nth_error l j); [|discriminate]. simpl. intros [= <-].
    now destruct (Nat.eqb j 0).
  - intros g. rewrite nth_error_mapi. subst l. simpl. now intros [= <-].
  - destruct (1 <? List.length l)%nat; [|reflexivity].
    unfold mapi. now rewrite length_mapi_from.
  - intros j ind. destruct (1 <? List.length l)%nat; [|now destruct j].
    rewrite nth_error_mapi.
    destruct (nth_error l j); [|discriminate]. simpl. intros [= <-]. split; reflexivity.
Qed.

Lemma act_shows (project : Project) (imgs : list string) (a : Action) (m : Modal) :
  images project = Some imgs ->
  offered (List.length imgs) a ->
  currentProject m = Some project /\ shows imgs m ->
  fst (act a m) = Returned
  /\ currentProject (snd (act a m)) = Some project /\ shows imgs (snd (act a m)).
Proof.
  intros Hi Ha [Hp Hs].
  pose proof Hs as [Hlt [Hurl [_ [_ [Hind _]]]]].
  destruct a as [| |index]; simpl.
  - unfold nextImage. rewrite Hp, Hi.
    destruct (List.length imgs <=? 1)%nat eqn:E; simpl; [auto|].
    apply Nat.leb_gt in E. split; [reflexivity|]. split; [exact Hp|].
    apply update_shows; [|exact Hurl|exact Hind].
    destruct (Nat.eqb (currentImageIndex m) (List.length imgs - 1)) eqn:E2; [lia|].
    apply Nat.eqb_neq in E2. lia.
  - unfold previousImage. rewrite Hp, Hi.
    destruct (List.length imgs <=? 1)%nat eqn:E; simpl; [auto|].
    apply Nat.leb_gt in E. split; [reflexivity|]. split; [exact Hp|].
    apply update_shows; [|exact Hurl|exact Hind].
    destruct (Nat.eqb (currentImageIndex m) 0); lia.
  - split; [reflexivity|]. split; [exact Hp|].
    apply update_shows; [exact Ha|exact Hurl|exact Hind].
Qed.

(** However the visitor browses a gallery that has images, it shows the
    current image: the index stays in range, exactly the current element
    is visible and carries the URL of that image in [src], no image is
    lost or reordered, and the indicator of the current image is the
    active one. *)
Theorem gallery_always_shows_current
    (project : Project) (imgs : list string) (actions : list Action) :
  images project = Some imgs ->
  imgs <> [] ->
  Forall (offered (List.length imgs)) actions ->
  currentProject (browse actions (openGallery project)) = Some project
  /\ shows imgs (browse actions (openGallery project)).
Proof.
  intros Hi Hne Hall.
  assert (H0 : currentProject (openGallery project) = Some project
               /\ shows imgs (openGallery project)).
  { split; [reflexivity | now apply openGallery_shows]. }
  revert H0. generalize (openGallery project) as m.
  induction Hall as [|a actions Ha Hall IH]; intros m Hm; simpl; [exact Hm|].
  apply IH. now apply (act_shows project imgs a m Hi Ha Hm).
Qed.

(** the index after [nextImage] *)
Lemma nextImage_index (project : Project) (imgs : list string) (m : Modal) :
  currentProject m = Some project -> images project = Some imgs ->
  (currentImageIndex m < List.length imgs)%nat ->
  currentProject (snd (nextImage m)) = Some project
  /\ currentImageIndex (snd (nextImage m))
     = ((currentImageIndex m + 1) mod List.length imgs)%nat.
Proof.
  intros Hp Hi Hlt. unfold nextImage. rewrite Hp, Hi.
  destruct (List.length imgs <=? 1)%nat eqn:E; simpl.
  - apply Nat.leb_le in E. split; [exact Hp|].
    assert (List.length imgs = 1)%nat by lia.
    assert (currentImageIndex m = 0)%nat by lia.
    now rewrite H, H0.
  - apply Nat.leb_gt in E. split; [exact Hp|].
    destruct (Nat.eqb (currentImageIndex m) (List.length imgs - 1)) eqn:E2.
    + apply Nat.eqb_eq in E2.
      replace (currentImageIndex m + 1)%nat with (List.length imgs) by lia.
      symmetry. apply Nat.Div0.mod_same.
    + apply Nat.eqb_neq in E2. symmetry. apply Nat.mod_small. lia.
Qed.

Lemma nextImage_eq (project : Project) (imgs : list string) (m : Modal) :
  currentProject m = Some project -> images project = Some imgs ->
  nextImage m
  = if (List.length imgs <=? 1)%nat then (Returned, m)
    else (Returned,
          updateGalleryDisplay
            (set_index (if Nat.eqb (currentImageIndex m) (List.length imgs - 1)
                        then 0 else currentImageIndex m + 1)%nat m)).
Proof. intros Hp Hi. unfold nextImage. now rewrite Hp, Hi. Qed.

Lemma previousImage_eq (project : Project) (imgs : list string) (m : Modal) :
  currentProject m = Some project -> images project = Some imgs ->
  previousImage m
  = if (List.length imgs <=? 1)%nat then (Returned, m)
    else (Returned,
          updateGalleryDisplay
            (set_index (if Nat.eqb (currentImageIndex m) 0
                        then List.length imgs - 1 else currentImageIndex m - 1)%nat m)).
Proof. intros Hp Hi. unfold previousImage. now rewrite Hp, Hi. Qed.

(** [nextImage] and [previousImage] undo each other. *)
Theorem next_and_previous_are_inverse (project : Project) (imgs : list string) (m : Modal) :
  currentProject m = Some project ->
  images project = Some imgs ->
  (currentImageIndex m < List.length imgs)%nat ->
  currentImageIndex (snd (previousImage (snd (nextImage m)))) = currentImageIndex m
  /\ currentImageIndex (snd (nextImage (snd (previousImage m)))) = currentImageIndex m.
Proof.
  intros Hp Hi Hlt.
  rewrite (nextImage_eq project imgs m Hp Hi), (previousImage_eq project imgs m Hp Hi).
  destruct (List.length imgs <=? 1)%nat eqn:E; cbn [snd].
  - rewrite (nextImage_eq project imgs m Hp Hi), (previousImage_eq project imgs m Hp Hi).
    rewrite E. split; reflexivity.
  - match goal with
    | |- context [previousImage ?m1] =>
        rewrite (previousImage_eq project imgs m1 (Hp : currentProject m1 = Some project) Hi)
    end.
    match goal with
    | |- context [nextImage ?m1] =>
        rewrite (nextImage_eq project imgs m1 (Hp : currentProject m1 = Some project) Hi)
    end.
    rewrite E. cbn [snd updateGalleryDisplay set_index currentImageIndex].
    apply Nat.leb_gt in E. split.
    + destruct (Nat.eqb (currentImageIndex m) (List.length imgs - 1)) eqn:E2.
      * apply Nat.eqb_eq in E2. simpl. lia.
      * apply Nat.eqb_neq in E2.
        destruct (Nat.eqb (currentImageIndex m + 1) 0) eqn:E3;
          [apply Nat.eqb_eq in E3|]; lia.
    + destruct (Nat.eqb (currentImageIndex m) 0) eqn:E2.
      * apply Nat.eqb_eq in E2. rewrite Nat.eqb_refl. lia.
      * apply Nat.eqb_neq in E2.
        destruct (Nat.eqb (currentImageIndex m - 1) (List.length imgs - 1)) eqn:E3;
          [apply Nat.eqb_eq in E3|]; lia.
Qed.

(** The gallery wraps around: as many [nextImage] as the project has
    images lead back to the image one started from. *)
Theorem gallery_wraps_around (project : Project) (imgs : list string) (m : Modal) :
  currentProject m = Some project ->
  images project = Some imgs ->
  (currentImageIndex m < List.length imgs)%nat ->
  currentImageIndex (browse (repeat Next (List.length imgs)) m) = currentImageIndex m.
Proof.
  intros Hp Hi Hlt.
  assert (H : forall k m',
             currentProject m' = Some project ->
             (currentImageIndex m' < List.length imgs)%nat ->
             currentImageIndex (browse (repeat Next k) m')
             = ((currentImageIndex m' + k) mod List.length imgs)%nat).
  { induction k as [|k IH]; intros m' Hp' Hlt'; simpl.
    - rewrite Nat.add_0_r. symmetry. now apply Nat.mod_small.
    - destruct (nextImage_index project imgs m' Hp' Hi Hlt') as [Hp2 Hidx].
      rewrite IH; [|exact Hp2|].
      + rewrite Hidx. rewrite Nat.Div0.add_mod_idemp_l. f_equal. lia.
      + rewrite Hidx. apply Nat.mod_upper_bound. lia. }
  rewrite (H _ m Hp Hlt).
  rewrite <- (Nat.mul_1_l (List.length imgs)) at 1.
  rewrite Nat.Div0.mod_add. now apply Nat.mod_small.
Qed.

Lemma gallery_always_shows_current_witness :
  map g_hidden
    (galleryImages (browse [Previous; Select 1; Next] (openGallery Examples.gallery_project)))
  = [true; true; false]
  /\ shows ["a.svg"; "b.svg"; "c.svg"]
       (browse [Previous; Select 1; Next] (openGallery Examples.gallery_project)).
Proof.
  split; [reflexivity|].
  apply (gallery_always_shows_current Examples.gallery_project ["a.svg"; "b.svg"; "c.svg"]
           [Previous; Select 1; Next]).
  - reflexivity.
  - discriminate.
  - repeat constructor.
Defined.

Lemma next_and_previous_are_inverse_witness :
  currentImageIndex (snd (nextImage (openGallery Examples.gallery_project))) = 1%nat
  /\ currentImageIndex
       (snd (previousImage (snd (nextImage (openGallery Examples.gallery_project)))))
     = 0%nat.
Proof.
  split; [reflexivity|].
  apply (next_and_previous_are_inverse Examples.gallery_project ["a.svg"; "b.svg"; "c.svg"]
           (openGallery Examples.gallery_project)); [reflexivity|reflexivity|simpl; lia].
Defined.

Lemma gallery_wraps_around_witness :
  currentImageIndex (browse [Next; Next; Next] (openGallery Examples.gallery_project))
  = 0%nat.
Proof.
  apply (gallery_wraps_around Examples.gallery_project ["a.svg"; "b.svg"; "c.svg"]
           (openGallery Examples.gallery_project)); [reflexivity|reflexivity|simpl; lia].
Defined.

End GalleryFacts.

(** ** Publications: filtering and queries *)

Module PublicationsExtras.
Import JsString Control Publications PublicationsSpec PublicationsQueries.

Lemma lowerAscii_idempotent (c : ascii) : lowerAscii (lowerAscii c) = lowerAscii c.
Proof.
  destruct c as [[] [] [] [] [] [] [] []]; reflexivity.
Qed.

Lemma toLowerCase_idempotent (s : string) : toLowerCase (toLowerCase s) = toLowerCase s.
Proof.
  induction s as [|c s IH]; simpl; [reflexivity|].
  now rewrite lowerAscii_idempotent, IH.
Qed.

Lemma prefix_refl (s : string) : String.prefix s s = true.
Proof.
  induction s as [|c s IH]; simpl; [reflexivity|].
  destruct (ascii_dec c c); [exact IH|contradiction].
Qed.

Lemma includes_refl (s : string) : includes s s = true.
Proof.
  destruct s; simpl; [reflexivity|].
  destruct (ascii_dec a a); [|contradiction]. now rewrite prefix_refl.
Qed.

Lemma filter_none {A} (f : A -> bool) (l : list A) :
  (forall x, In x l -> f x = false) -> filter f l = [].
Proof.
  induction l as [|x l IH]; intros H; simpl; [reflexivity|].
  rewrite (H x (or_introl eq_refl)). apply IH. intros y Hy. apply H. now right.
Qed.

Lemma filter_every {A} (f : A -> bool) (l : list A) :
  Forall (fun x => f x = true) l -> filter f l = l.
Proof.
  induction 1 as [|x l Hx _ IH]; simpl; [reflexivity|]. now rewrite Hx, IH.
Qed.

Lemma filter_perm {A} (f : A -> bool) (l l' : list A) :
  Permutation l l' -> Permutation (filter f l) (filter f l').
Proof.
  induction 1 as [|x l l' _ IH|x y l|l l' l'' _ IH1 _ IH2]; simpl.
  - constructor.
  - destruct (f x); [now constructor|exact IH].
  - destruct (f x), (f y); try reflexivity. apply perm_swap.
  - now transitivity (filter f l').
Qed.

Section Sorted.
Context {A : Type}.
Variable comparefn : A -> A -> option Z.
Variable dom : A -> Prop.
Variable R : A -> A -> Prop.
Hypothesis R_keeps : forall a b, dom a -> dom b -> R a b -> JsArray.keeps comparefn a b = true.

(** Sorting a sorted array leaves it as it is. *)
Lemma sort_sorted_id (l : list A) :
  Forall dom l -> StronglySorted R l -> JsArray.sort comparefn l = l.
Proof.
  intros Hd Hs. induction Hs as [|x l Hs IH Hx]; simpl; [reflexivity|].
  inversion Hd as [|x' l' Hdx Hdl]; subst.
  rewrite (IH Hdl).
  destruct l as [|y l]; simpl; [reflexivity|].
  inversion Hx as [|y' l' Hxy _]; subst.
  inversion Hdl as [|y' l' Hdy _]; subst.
  now rewrite (R_keeps x y Hdx Hdy Hxy).
Qed.

End Sorted.

Section Manager.
Variable Date_parse : string -> option Z.
Variable toLocaleDateString : string -> string.

Local Notation "'cmp'" := (comparePublications Date_parse) (only parsing).
Local Notation "'before'" := (precedes Date_parse) (only parsing).
Local Notation "'card'" := (createPublicationCard toLocaleDateString) (only parsing).

Lemma precedes_keeps (a b : Publication) :
  dated Date_parse a -> dated Date_parse b ->
  before a b -> JsArray.keeps cmp a b = true.
Proof.
  unfold dated, JsArray.keeps, comparePublications, precedes, time.
  intros Ha Hb.
  destruct (Date_parse (publishedDate a)) as [ta|]; [|congruence].
  destruct (Date_parse (publishedDate b)) as [tb|]; [|congruence].
  intros [[Hfa Hfb]|[Hf Ht]].
  - now rewrite Hfa, Hfb.
  - rewrite Hf. destruct (featured b); simpl; apply Z.leb_le; lia.
Qed.

Lemma init_renders_sorted (response : Fetch.JsonResponse Publication)
    (pubs : list Publication) (grid : string) :
  Fetch.ok response = true ->
  Fetch.json response = Some (Some pubs) ->
  pubs <> [] ->
  init Date_parse toLocaleDateString (Some response) (new_manager (Some grid))
  = (Returned,
     mkState (JsArray.sort cmp pubs) true
       (Some (join (map card (JsArray.sort cmp pubs))))).
Proof.
  intros Hok Hj Hne.
  unfold init, try_catch, seq, setupDOM, showLoadingState, hideLoadingState, skip,
    loadPublications, guarded_set. simpl. rewrite Hok, Hj. simpl.
  unfold renderPublications. simpl.
  destruct pubs as [|p l]; [congruence|]. reflexivity.
Qed.

Lemma sort_dated (l : list Publication) :
  Forall (dated Date_parse) l ->
  Forall (dated Date_parse) (JsArray.sort cmp l)
  /\ StronglySorted before (JsArray.sort cmp l).
Proof.
  intros Hd. split.
  - rewrite <- (SortFacts.sort_perm cmp l). exact Hd.
  - apply (SortFacts.sort_sorted cmp (dated Date_parse) before);
      [exact (PublicationsFacts.keeps_precedes Date_parse)
      |exact (PublicationsFacts.swaps_precedes Date_parse)
      |exact (PublicationsFacts.precedes_trans Date_parse)
      |exact Hd].
Qed.

(** Choosing 'all' again after the first rendering changes neither the
    order of [this.publications] nor the grid: sorting the sorted list
    gives the same list. *)
Theorem refilter_all_changes_nothing
    (response : Fetch.JsonResponse Publication) (pubs : list Publication) (grid : string) :
  Fetch.ok response = true ->
  Fetch.json response = Some (Some pubs) ->
  pubs <> [] ->
  Forall (dated Date_parse) pubs ->
  filterByType Date_parse toLocaleDateString "all"
    (snd (init Date_parse toLocaleDateString (Some response) (new_manager (Some grid))))
  = (Returned,
     snd (init Date_parse toLocaleDateString (Some response) (new_manager (Some grid)))).
Proof.
  intros Hok Hj Hne Hd.
  rewrite (init_renders_sorted response pubs grid Hok Hj Hne). cbn [snd].
  destruct (sort_dated pubs Hd) as [Hd' Hs'].
  unfold filterByType. simpl.
  now rewrite (sort_sorted_id cmp (dated Date_parse) before precedes_keeps _ Hd' Hs').
Qed.

(** A type filter shows exactly the publications of that type, one card
    each, featured first and then newest first when the dates are valid;
    [this.publications] keeps its content and order.  When no
    publication has the type the grid is emptied to the empty string,
    without the 'No publications available' notice. *)
Theorem filterByType_shows_the_type (type html : string) (s : State) :
  publicationsGrid s = true ->
  gridElement s = Some html ->
  type <> "all" ->
  exists shown,
    filterByType Date_parse toLocaleDateString type s
    = (Returned, mkState (publications s) true (Some (join (map card shown))))
    /\ Permutation
         (filter (fun pub => String.eqb (Publications.type pub) type) (publications s))
         shown
    /\ (Forall (dated Date_parse) (publications s) -> StronglySorted before shown)
    /\ ((forall pub, In pub (publications s) -> Publications.type pub <> type) ->
        shown = []
        /\ gridElement (snd (filterByType Date_parse toLocaleDateString type s))
           = Some EmptyString).
Proof.
  intros Hg He Ht. apply String.eqb_neq in Ht.
  set (matches := filter (fun pub => String.eqb (Publications.type pub) type)
                    (publications s)).
  exists (JsArray.sort cmp matches).
  assert (E : filterByType Date_parse toLocaleDateString type s
              = (Returned,
                 mkState (publications s) true
                   (Some (join (map card (JsArray.sort cmp matches)))))).
  { unfold filterByType. rewrite Ht, Hg. unfold set_innerHTML. now rewrite Hg, He. }
  split; [exact E|]. split; [apply SortFacts.sort_perm|]. split.
  - intros Hd. apply sort_dated. subst matches.
    apply Forall_forall. intros p Hp. apply filter_In in Hp as [Hp _].
    revert p Hp. now apply Forall_forall.
  - intros Hnone.
    assert (Hm : matches = []).
    { apply filter_none. intros p Hp.
      apply String.eqb_neq. now apply Hnone. }
    rewrite E, Hm. split; reflexivity.
Qed.

(** The tag search ignores case, in the query and in the tags: the
    lowercased query gives the same result, and every publication that
    carries the query as a tag, up to case, is found. *)
Theorem tag_search_ignores_case (tag : string) (s : State) :
  getPublicationsByTag (toLowerCase tag) s = getPublicationsByTag tag s
  /\ (forall pub pubTag,
        In pub (publications s) -> In pubTag (tags pub) ->
        toLowerCase pubTag = toLowerCase tag ->
        In pub (getPublicationsByTag tag s))
  /\ (forall pub, In pub (getPublicationsByTag tag s) -> In pub (publications s)).
Proof.
  unfold getPublicationsByTag. split; [|split].
  - now rewrite toLowerCase_idempotent.
  - intros pub pubTag Hp Ht Heq. apply filter_In. split; [exact Hp|].
    apply existsb_exists. exists pubTag. split; [exact Ht|].
    rewrite Heq. apply includes_refl.
  - intros pub Hp. now apply filter_In in Hp.
Qed.

(** After the rendering of dated publications the featured ones head
    the list: [this.publications] is [getFeaturedPublications()] followed
    by the publications that are not featured. *)
Theorem featured_publications_head_the_list
    (response : Fetch.JsonResponse Publication) (pubs : list Publication) (grid : string) :
  Fetch.ok response = true ->
  Fetch.json response = Some (Some pubs) ->
  pubs <> [] ->
  Forall (dated Date_parse) pubs ->
  let s := snd (init Date_parse toLocaleDateString (Some response)
                  (new_manager (Some grid))) in
  publications s
  = (getFeaturedPublications s
     ++ filter (fun pub => negb (featured pub)) (publications s))%list
  /\ Permutation (getFeaturedPublications s) (filter featured pubs).
Proof.
  intros Hok Hj Hne Hd s. subst s.
  rewrite (init_renders_sorted response pubs grid Hok Hj Hne). cbn [snd].
  unfold getFeaturedPublications. cbn [publications].
  destruct (sort_dated pubs Hd) as [_ Hs].
  destruct (PublicationsFacts.sorted_featured_first Date_parse _ Hs) as [l1 [l2 [E [H1 H2]]]].
  split.
  - rewrite E, !filter_app.
    assert (F1 : filter featured l1 = l1) by (apply filter_every; exact H1).
    assert (F2 : filter featured l2 = []).
    { apply filter_none. now apply Forall_forall. }
    assert (G1 : filter (fun pub => negb (featured pub)) l1 = []).
    { apply filter_none. intros x Hx.
      rewrite Forall_forall in H1. now rewrite (H1 x Hx). }
    assert (G2 : filter (fun pub => negb (featured pub)) l2 = l2).
    { apply filter_every. eapply Forall_impl; [|exact H2].
      intros x Hx. now rewrite Hx. }
    rewrite F1, F2, G1, G2. simpl. now rewrite app_nil_r.
  - apply Permutation_sym, filter_perm, SortFacts.sort_perm.
Qed.

End Manager.

Lemma refilter_all_changes_nothing_witness :
  fst (filterByType Examples.parse_date Examples.show_date "all"
         (snd (init Examples.parse_date Examples.show_date
                 (Examples.json_ok
                    [Examples.post_2023; Examples.paper_2022; Examples.post_2024])
                 (new_manager (Some EmptyString)))))
  = Returned
  /\ publications
       (snd (filterByType Examples.parse_date Examples.show_date "all"
               (snd (init Examples.parse_date Examples.show_date
                       (Examples.json_ok
                          [Examples.post_2023; Examples.paper_2022; Examples.post_2024])
                       (new_manager (Some EmptyString))))))
     = [Examples.paper_2022; Examples.post_2024; Examples.post_2023].
Proof.
  pose proof (refilter_all_changes_nothing Examples.parse_date Examples.show_date
                (Fetch.mkJsonResponse 200
                   (Some (Some [Examples.post_2023; Examples.paper_2022;
                                Examples.post_2024])))
                [Examples.post_2023; Examples.paper_2022; Examples.post_2024] EmptyString
                eq_refl eq_refl) as H.
  unfold Examples.json_ok. rewrite H.
  - split; reflexivity.
  - discriminate.
  - repeat constructor; discriminate.
Defined.

Lemma filterByType_shows_the_type_witness :
  exists shown,
    filterByType Examples.parse_date Examples.show_date "research-paper"
      (mkState [Examples.post_2023; Examples.tagged_post] true (Some EmptyString))
    = (Returned,
       mkState [Examples.post_2023; Examples.tagged_post] true
         (Some (join (map (createPublicationCard Examples.show_date) shown))))
    /\ Permutation [Examples.tagged_post] shown.
Proof.
  destruct (filterByType_shows_the_type Examples.parse_date Examples.show_date
              "research-paper" EmptyString
              (mkState [Examples.post_2023; Examples.tagged_post] true (Some EmptyString))
              eq_refl eq_refl) as [shown [H1 [H2 _]]].
  - discriminate.
  - exists shown. split; [exact H1 | exact H2].
Defined.

Lemma featured_publications_head_the_list_witness :
  getFeaturedPublications
    (snd (init Examples.parse_date Examples.show_date
            (Examples.json_ok [Examples.post_2023; Examples.paper_2022; Examples.post_2024])
            (new_manager (Some EmptyString))))
  = [Examples.paper_2022]
  /\ Permutation
       (getFeaturedPublications
          (snd (init Examples.parse_date Examples.show_date
                  (Examples.json_ok
                     [Examples.post_2023; Examples.paper_2022; Examples.post_2024])
                  (new_manager (Some EmptyString)))))
       (filter featured [Examples.post_2023; Examples.paper_2022; Examples.post_2024]).
Proof.
  split; [reflexivity|].
  apply (featured_publications_head_the_list Examples.parse_date Examples.show_date
           (Fetch.mkJsonResponse 200
              (Some (Some [Examples.post_2023; Examples.paper_2022; Examples.post_2024])))
           [Examples.post_2023; Examples.paper_2022; Examples.post_2024] EmptyString).
  - reflexivity.
  - reflexivity.
  - discriminate.
  - repeat constructor; discriminate.
Defined.

(** 'ml' finds the post tagged 'Machine Learning' only through a
    substring; 'RAG' and 'rag' find it alike. *)
Example tag_search_examples :
  getPublicationsByTag "rag" (mkState [Examples.post_2023; Examples.tagged_post] true None)
  = [Examples.tagged_post]
  /\ getPublicationsByTag "LEARN"
       (mkState [Examples.post_2023; Examples.tagged_post] true None)
     = [Examples.tagged_post].
Proof. split; reflexivity. Qed.

End PublicationsExtras.

(** ** The AI engineering page *)

Module AIEngineeringExtras.
Import JsString Control AIEngineering.

(** Whatever the status of the response, a parsed data file with entries
    is rendered as one card per entry, in file order. *)
Theorem ai_engineering_one_card_per_entry
    (response : Fetch.JsonResponse Project) (entries : list Project) (grid : string) :
  Fetch.json response = Some (Some entries) ->
  entries <> [] ->
  init (Some response) (new_manager (Some grid))
  = (Returned, mkState entries (Some (join (map createProjectCard entries))))
  /\ List.length (map createProjectCard entries) = List.length entries.
Proof.
  intros Hj Hne. split; [|apply length_map].
  unfold init, seq, loadProjects. rewrite Hj.
  unfold renderProjects. simpl.
  destruct entries; [congruence|reflexivity].
Qed.

Lemma ai_engineering_one_card_per_entry_witness :
  container (snd (init (Examples.json_ok [Examples.pharmgpt_card])
                    (new_manager (Some EmptyString))))
  = Some (createProjectCard Examples.pharmgpt_card).
Proof.
  destruct (ai_engineering_one_card_per_entry
              (Fetch.mkJsonResponse 200 (Some (Some [Examples.pharmgpt_card])))
              [Examples.pharmgpt_card] EmptyString eq_refl) as [H _].
  - discriminate.
  - unfold Examples.json_ok. rewrite H. reflexivity.
Defined.

End AIEngineeringExtras.

(** ** The accessibility audit *)

Module AuditFacts.
Import Accessibility AccessibilitySpec.

Lemma app_nil_iff {A} (l1 l2 : list A) : (l1 ++ l2)%list = [] <-> l1 = [] /\ l2 = [].
Proof.
  split; [apply app_eq_nil | intros [-> ->]; reflexivity].
Qed.

Lemma image_issues_none (index : nat) (images : list ImageEl) :
  image_issues index images = [] <-> Forall described images.
Proof.
  revert index. induction images as [|img rest IH]; intros index; simpl.
  - split; [constructor|reflexivity].
  - rewrite app_nil_iff, IH. split.
    + intros [H Hr]. constructor; [|exact Hr]. unfold described.
      destruct (img_alt img); simpl in H.
      * destruct (attribute_set (img_aria_label img)); [now right|discriminate].
      * left. discriminate.
    + intros H. inversion H as [|x l Hd Hr]; subst. split; [|exact Hr].
      destruct Hd as [Hd|Hd].
      * destruct (img_alt img); [contradiction|reflexivity].
      * rewrite Hd. now rewrite andb_false_r.
Qed.

Lemma input_issues_throws (index : nat) (inputs : list InputEl) :
  input_issues index inputs = None <-> Exists (fun input => label_lookup input = Invalid) inputs.
Proof.
  revert index. induction inputs as [|input rest IH]; intros index; simpl.
  - split; [discriminate|intros H; inversion H].
  - rewrite Exists_cons, <- (IH (S index)).
    destruct (label_lookup input); destruct (input_issues (S index) rest);
      split; try discriminate; auto; intros [H|H]; discriminate.
Qed.

Lemma input_issues_none (index : nat) (inputs : list InputEl) :
  input_issues index inputs = Some []
  <-> Forall searchable inputs /\ Forall labelled inputs.
Proof.
  revert index. induction inputs as [|input rest IH]; intros index; simpl.
  - split; [split; constructor|reflexivity].
  - split.
    + intros H.
      destruct (label_lookup input) eqn:El; try discriminate;
        destruct (input_issues (S index) rest) as [l|] eqn:Er; try discriminate;
        injection H as H;
        destruct (attribute_set (input_aria_label input)) eqn:Ea; try discriminate;
        simpl in H; subst l; apply IH in Er as [Hs Hl];
        (split; constructor; auto; [unfold searchable; congruence|]);
        unfold labelled; auto.
    + intros [Hs Hl].
      inversion Hs as [|x l Hs1 Hs2]; inversion Hl as [|y l' Hl1 Hl2]; subst.
      assert (Er : input_issues (S index) rest = Some []) by (apply IH; auto).
      rewrite Er.
      destruct (label_lookup input) eqn:El.
      * reflexivity.
      * destruct Hl1 as [H|H]; [congruence|]. now rewrite H.
      * now contradiction Hs1.
Qed.

Lemma heading_issues_none (index lastLevel : nat) (headings : list nat) :
  heading_issues index lastLevel headings = []
  <-> forall i level, nth_error headings i = Some level ->
                      (level <= match i with
                                | O => lastLevel
                                | S j => nth j headings 0
                                end + 1)%nat.
Proof.
  revert index lastLevel. induction headings as [|h rest IH]; intros index lastLevel; simpl.
  - split; [intros _ [|i] level; discriminate | reflexivity].
  - rewrite app_nil_iff, IH. split.
    + intros [H Hr] [|i] level Hn; simpl in Hn.
      * injection Hn as <-.
        destruct (lastLevel + 1 <? h)%nat eqn:E; [discriminate|].
        now apply Nat.ltb_ge in E.
      * specialize (Hr i level Hn). destruct i; exact Hr.
    + intros H. split.
      * specialize (H 0%nat h eq_refl). simpl in H.
        destruct (lastLevel + 1 <? h)%nat eqn:E; [|reflexivity].
        apply Nat.ltb_lt in E. lia.
      * intros i level Hn. specialize (H (S i) level Hn). destruct i; exact H.
Qed.

(** The audit throws exactly when the label lookup of some form control
    throws.  It returns without an issue exactly when no lookup throws,
    every image has an alternative text or an aria-label, every form
    control has a label or an aria-label, and no heading is more than
    one level below the heading before it (so the first heading must be
    an h1). *)
Theorem audit_is_clean_iff (page : Page) :
  (runAccessibilityAudit page = None
   <-> Exists (fun input => label_lookup input = Invalid) (page_inputs page))
  /\ (runAccessibilityAudit page = Some []
      <-> Forall described (page_images page)
          /\ Forall searchable (page_inputs page)
          /\ Forall labelled (page_inputs page)
          /\ no_level_skip (page_headings page)).
Proof.
  unfold runAccessibilityAudit, no_level_skip, level_before.
  rewrite <- (input_issues_throws 0), <- (image_issues_none 0),
    <- (heading_issues_none 0 0).
  pose proof (input_issues_none 0 (page_inputs page)) as Hi.
  destruct (input_issues 0 (page_inputs page)) as [l|]; split; split;
    try discriminate; try reflexivity.
  - intros [= H]. apply app_eq_nil in H as [H1 H]. apply app_eq_nil in H as [H2 H3].
    subst l. destruct (proj1 Hi eq_refl). auto.
  - intros [H1 [Hs [Hl H3]]]. rewrite H1, H3.
    assert (H : Some l = Some []) by (apply Hi; auto).
    injection H as ->. reflexivity.
  - intros [_ [Hs [Hl _]]].
    assert (H : None = Some (@nil string)) by (apply Hi; auto). discriminate H.
Qed.

(** a page that starts at h2 is flagged; an id that breaks the selector
    stops the audit even when the control has an aria-label *)
Example audit_examples :
  runAccessibilityAudit (mkPage [mkImageEl "Portrait" None] [] [2; 3; 3; 2]%nat)
  = Some ["Heading level skip at heading 1"]
  /\ runAccessibilityAudit (mkPage [mkImageEl "Portrait" None] [] [1; 2; 3; 2; 2]%nat)
     = Some []
  /\ runAccessibilityAudit
       (mkPage [] [mkInputEl Missing None; mkInputEl Invalid (Some "Name")] [1]%nat)
     = None.
Proof. repeat split; reflexivity. Qed.

End AuditFacts.
